(** * Data-access facade of the WhatsApp food-ordering agent

    A shallow embedding of [src/services/database.js]: the class
    [DatabaseService] with its two backends (a relational store reached
    through the Supabase client, a spreadsheet reached through the Google
    Sheets client), and the properties of its operations.

    Layout: JavaScript built-ins used by the service, the data model, the
    remote world and the two clients, the [Async] monad, the service itself,
    then the theorems. *)

From Stdlib Require Import ZArith List String Ascii Bool Lia.
From Stdlib Require Import Permutation Sorted DecimalString DecimalPos Eqdep_dec.
Import ListNotations.

Local Open Scope string_scope.
Local Open Scope Z_scope.

(** ** JavaScript built-ins *)

(** A JavaScript string is held as the bytes of its UTF-8 encoding; a text
    occurs in another exactly when its bytes occur in the other's.
    [String.prototype.toLowerCase] follows the Unicode case tables,
    which the development does not fix: everything below is stated for an
    arbitrary lower-casing function, and [ascii_case] is the instance the
    examples run with. *)
Class CaseMap := toLowerCase : string -> string.

Definition lower_ascii (c : ascii) : ascii :=
  let n := nat_of_ascii c in
  if (Nat.leb 65 n && Nat.leb n 90)%bool then ascii_of_nat (n + 32) else c.

Fixpoint lower_string (s : string) : string :=
  match s with
  | EmptyString => EmptyString
  | String c s' => String (lower_ascii c) (lower_string s')
  end.

Definition ascii_case : CaseMap := lower_string.

(** [s.startsWith(q)] *)
Fixpoint startsWith (s q : string) : bool :=
  match q, s with
  | EmptyString, _ => true
  | String _ _, EmptyString => false
  | String b q', String a s' => Ascii.eqb a b && startsWith s' q'
  end.

(** [s.includes(q)]: [q] occurs in [s] at some offset. *)
Fixpoint includes (s q : string) : bool :=
  startsWith s q ||
  match s with
  | EmptyString => false
  | String _ s' => includes s' q
  end.

(** A Number that came out of [parseInt]: [NaN], an integer that a double
    holds, or an infinity. *)
Inductive JsInt :=
| NaN
| Num (z : Z)
| Infinity (negative : bool).

(** [x > 0] on such a Number; every comparison with [NaN] is false. *)
Definition gt0 (x : JsInt) : bool :=
  match x with
  | NaN => false
  | Num z => 0 <? z
  | Infinity negative => negb negative
  end.

(** The white space of one byte: tab, line feed, vertical tab, form feed,
    carriage return, space; and the byte A0, which opens no encoded text and
    is U+00A0 where a text is held one byte per character. *)
Definition is_white (c : ascii) : bool :=
  match nat_of_ascii c with
  | 9%nat | 10%nat | 11%nat | 12%nat | 13%nat | 32%nat | 160%nat => true
  | _ => false
  end.

(** U+00A0 in two bytes. *)
Definition is_white2 (c1 c2 : ascii) : bool :=
  match nat_of_ascii c1, nat_of_ascii c2 with
  | 194%nat, 160%nat => true
  | _, _ => false
  end.

(** The white space and line terminators of three bytes: U+1680,
    U+2000 to U+200A, U+2028, U+2029, U+202F, U+205F, U+3000, U+FEFF. *)
Definition is_white3 (c1 c2 c3 : ascii) : bool :=
  match nat_of_ascii c1, nat_of_ascii c2 with
  | 225%nat, 154%nat => Nat.eqb (nat_of_ascii c3) 128
  | 226%nat, 128%nat =>
      let n := nat_of_ascii c3 in
      (Nat.leb 128 n && Nat.leb n 138) || Nat.eqb n 168 || Nat.eqb n 169
      || Nat.eqb n 175
  | 226%nat, 129%nat => Nat.eqb (nat_of_ascii c3) 159
  | 227%nat, 128%nat => Nat.eqb (nat_of_ascii c3) 128
  | 239%nat, 187%nat => Nat.eqb (nat_of_ascii c3) 191
  | _, _ => false
  end.

(** What [parseInt] skips before it reads: every leading white space and
    line terminator. *)
Fixpoint trimStart (s : string) : string :=
  match s with
  | String c1 s1 =>
      if is_white c1 then trimStart s1
      else
        match s1 with
        | String c2 s2 =>
            if is_white2 c1 c2 then trimStart s2
            else
              match s2 with
              | String c3 s3 => if is_white3 c1 c2 c3 then trimStart s3 else s
              | EmptyString => s
              end
        | EmptyString => s
        end
  | EmptyString => s
  end.

(** The Number nearest to an integer: the integer itself up to 2^53 in
    magnitude, beyond that the nearest multiple of the power of two that
    leaves 53 significant bits (the even one of two equally near), and an
    infinity from 2^1024 on. *)
Definition to_double (n : Z) : JsInt :=
  let a := Z.abs n in
  if a <? 9007199254740992 then Num n
  else
    let e := Z.log2 a - 52 in
    let q := Z.shiftr a e in
    let r := a - Z.shiftl q e in
    let half := Z.shiftl 1 (e - 1) in
    let q' := if (half <? r) || ((half =? r) && Z.odd q) then q + 1 else q in
    let v := Z.shiftl q' e in
    if Z.shiftl 1 1024 <=? v then Infinity (n <? 0) else Num (Z.sgn n * v).

Definition digit_of (radix : Z) (c : ascii) : option Z :=
  let n := Z.of_nat (nat_of_ascii c) in
  let v := if (48 <=? n) && (n <=? 57) then n - 48
           else if (97 <=? n) && (n <=? 122) then n - 87
           else if (65 <=? n) && (n <=? 90) then n - 55
           else radix in
  if v <? radix then Some v else None.

(** The longest prefix of digits of [s], read in [radix]; [acc] is the value
    of the digits seen so far, [None] when there is none yet. *)
Fixpoint read_digits (radix : Z) (s : string) (acc : option Z) : option Z :=
  match s with
  | EmptyString => acc
  | String c s' =>
      match digit_of radix c with
      | Some d =>
          read_digits radix s'
            (Some (match acc with Some a => a * radix + d | None => d end))
      | None => acc
      end
  end.

Definition strip_sign (s : string) : Z * string :=
  match s with
  | String "-" s' => (-1, s')
  | String "+" s' => (1, s')
  | _ => (1, s)
  end.

Definition strip_radix (s : string) : Z * string :=
  match s with
  | String "0" (String "x" s') => (16, s')
  | String "0" (String "X" s') => (16, s')
  | _ => (10, s)
  end.

(** [parseInt(v)] with no radix argument; [None] is [undefined], whose
    string form has no digit. *)
Definition parseInt (v : option string) : JsInt :=
  match v with
  | None => NaN
  | Some s =>
      let '(sign, s1) := strip_sign (trimStart s) in
      let '(radix, s2) := strip_radix s1 in
      match read_digits radix s2 None with
      | Some n => to_double (sign * n)
      | None => NaN
      end
  end.

(** A Number that is only carried around: the text it was read from.  The
    service never computes with prices or amounts, so the floating-point
    value stays symbolic. *)
Inductive JsFloat :=
| parseFloat (raw : option string).

Definition string_of_Z (z : Z) : string :=
  NilZero.string_of_int (Z.to_int z).

Definition dquote : string := String (ascii_of_nat 34) EmptyString.

(** ** Data model *)

Module Item.
(** An inventory object as the service hands it to its callers. *)
Record t := mk {
  id : JsInt;
  name : option string;
  price : JsFloat;
  quantity : JsInt;
  is_available : bool
}.
End Item.
Definition InventoryItem := Item.t.

Module InventoryRow.
(** A row of the relational table [inventory]; every column holds a value
    of its type, as the data model declares them (no NULL). *)
Record t := mk {
  id : Z;
  name : string;
  price : JsFloat;
  quantity : Z;
  is_available : bool
}.
End InventoryRow.

Module Faq.
Record t := mk {
  id : JsInt;
  question : option string;
  answer : option string;
  is_active : bool
}.
End Faq.
Definition FAQ := Faq.t.

Module FaqRow.
(** A row of the relational table [faqs], every column holding a value
    of its type. *)
Record t := mk {
  id : Z;
  question : string;
  answer : string;
  is_active : bool
}.
End FaqRow.

(** An integer a Number holds exactly and prints in plain decimal: at most
    [Number.MAX_SAFE_INTEGER] in magnitude. *)
Definition MAX_SAFE_INTEGER : Z := 9007199254740991.

Definition is_safe (z : Z) : bool := Z.abs z <=? MAX_SAFE_INTEGER.

Record SafeInteger := mkSafe {
  value : Z;
  value_safe : is_safe value = true
}.

(** The order in which the caller wrote the two members of an item object,
    which is the order [JSON.stringify] prints them in. *)
Inductive KeyOrder := itemId_first | quantity_first.

Module OrderItem.
(** An element of [orderData.items]: an object with the members [itemId]
    and [quantity]. *)
Record t := mk {
  itemId : SafeInteger;
  quantity : SafeInteger;
  keys : KeyOrder
}.
End OrderItem.

Module OrderData.
(** The argument of [createOrder]. *)
Record t := mk {
  customerPhone : string;
  customerName : option string;
  items : list OrderItem.t;
  totalAmount : JsFloat
}.
End OrderData.

Module NewOrder.
(** The object [createOrder] builds before it talks to a backend.
    [created_at] is the instant in epoch milliseconds; its ISO-8601
    rendering orders the same way. *)
Record t := mk {
  customer_phone : string;
  customer_name : option string;
  items : string;
  total_amount : JsFloat;
  status : string;
  created_at : Z
}.
End NewOrder.

Module Order.
(** An order with its identifier: a row of the relational table [orders],
    and the object [createOrder] returns. *)
Record t := mk {
  id : Z;
  customer_phone : string;
  customer_name : option string;
  items : string;
  total_amount : JsFloat;
  status : string;
  created_at : Z
}.
End Order.

(** [{ ...order, id }] *)
Definition with_id (o : NewOrder.t) (i : Z) : Order.t :=
  Order.mk i (NewOrder.customer_phone o) (NewOrder.customer_name o)
    (NewOrder.items o) (NewOrder.total_amount o) (NewOrder.status o)
    (NewOrder.created_at o).

(** [JSON.stringify] on a sequence of [{itemId, quantity}] objects: each
    member as the quoted key, a colon and the number in decimal, the members
    of an object in the order they were written. *)
Definition stringify_member (key : string) (n : SafeInteger) : string :=
  dquote ++ key ++ dquote ++ ":" ++ string_of_Z (value n).

Definition stringify_item (i : OrderItem.t) : string :=
  match OrderItem.keys i with
  | itemId_first =>
      "{" ++ stringify_member "itemId" (OrderItem.itemId i) ++ ","
      ++ stringify_member "quantity" (OrderItem.quantity i) ++ "}"
  | quantity_first =>
      "{" ++ stringify_member "quantity" (OrderItem.quantity i) ++ ","
      ++ stringify_member "itemId" (OrderItem.itemId i) ++ "}"
  end.

Fixpoint join_comma (l : list string) : string :=
  match l with
  | [] => EmptyString
  | [x] => x
  | x :: l' => x ++ "," ++ join_comma l'
  end.

Definition JSON_stringify (items : list OrderItem.t) : string :=
  "[" ++ join_comma (map stringify_item items) ++ "]".

(** ** Errors and log *)

Inductive JsError :=
| NoDatabaseConfiguration        (* new Error('No database configuration found') *)
| PostgrestError (code : string) (* the [error] member of a relational response *)
| TransportError (msg : string)  (* the rejection of a Sheets request *)
| TypeError                      (* a property read on [undefined] *)
| ConfigurationError (msg : string). (* a library refusing what it is given *)

Inductive Level := ERROR | INFO | WARN.

Record LogEntry := mkLog {
  level : Level;
  message : string;
  detail : option JsError
}.

(** ** The remote world *)

(** The relational store: three tables and the sequence behind [orders.id]. *)
Record Tables := mkTables {
  inventory : list InventoryRow.t;
  orders : list Order.t;
  faqs : list FaqRow.t;
  next_order_id : Z
}.

Inductive Cell :=
| CellString (s : string)
| CellNumber (x : JsFloat)
| CellInstant (t : Z)
| CellUndefined.

(** The spreadsheet, seen through the three ranges the service names:
    what [values.get] answers for [Inventory!A2:E1000] and [FAQs!A2:D1000]
    ([None] when the range holds no data: the response has no [values]
    member), and the rows appended to [Orders!A:G]. *)
Record Sheet := mkSheet {
  Inventory_values : option (list (list string));
  FAQs_values : option (list (list string));
  Orders_rows : list (list Cell)
}.

(** Everything outside the service: both stores, whether the network
    currently fails ([fault]), the process clock as the sequence of its
    successive readings, and the log written so far. *)
Record World := mkWorld {
  db : Tables;
  sheet : Sheet;
  fault : option string;
  time : nat -> Z;
  reads : nat;
  log : list LogEntry
}.

Definition set_db (t : Tables) (w : World) : World :=
  mkWorld t (sheet w) (fault w) (time w) (reads w) (log w).
Definition set_sheet (s : Sheet) (w : World) : World :=
  mkWorld (db w) s (fault w) (time w) (reads w) (log w).
Definition set_reads (n : nat) (w : World) : World :=
  mkWorld (db w) (sheet w) (fault w) (time w) n (log w).
Definition set_log (l : list LogEntry) (w : World) : World :=
  mkWorld (db w) (sheet w) (fault w) (time w) (reads w) l.

(** ** Asynchronous computations

    An [async] function is a function of the world that completes normally
    or abruptly; [await] is sequencing. *)

Inductive Completion (A : Type) :=
| Return (a : A)
| Throw (e : JsError).
Arguments Return {A} a.
Arguments Throw {A} e.

Definition Async (A : Type) : Type := World -> Completion A * World.

Definition ret {A} (a : A) : Async A := fun w => (Return a, w).

Definition throw {A} (e : JsError) : Async A := fun w => (Throw e, w).

Definition bind {A B} (c : Async A) (k : A -> Async B) : Async B :=
  fun w =>
    match c w with
    | (Return a, w') => k a w'
    | (Throw e, w') => (Throw e, w')
    end.

(** [try { body } catch (error) { handler }] *)
Definition tryCatch {A} (body : Async A) (handler : JsError -> Async A) : Async A :=
  fun w =>
    match body w with
    | (Return a, w') => (Return a, w')
    | (Throw e, w') => handler e w'
    end.

Declare Scope async_scope.
Delimit Scope async_scope with async.
Notation "x <- c ;; k" := (bind c (fun x => k))
  (at level 61, c at next level, right associativity) : async_scope.
Notation "c ;; k" := (bind c (fun _ => k))
  (at level 61, right associativity) : async_scope.
Local Open Scope async_scope.

Definition write_log (lv : Level) (msg : string) (d : option JsError) : Async unit :=
  fun w => (Return tt, set_log (log w ++ [mkLog lv msg d]) w).

Module logger.
Definition error (msg : string) (e : JsError) : Async unit :=
  write_log ERROR msg (Some e).
Definition info (msg : string) : Async unit := write_log INFO msg None.
Definition warn (msg : string) : Async unit := write_log WARN msg None.
End logger.

(** [Date.now()], and the instant of [new Date()]: the next reading of the
    clock. *)
Definition Date_now : Async Z :=
  fun w => (Return (time w (reads w)), set_reads (S (reads w)) w).

(** ** The Supabase client

    A query is built by chaining and then awaited; it answers an object with
    a [data] and an [error] member, of which the service reads [error]
    first.  The answers are those of the store behind it: a filter keeps the
    rows whose column equals the value, [order] sorts, [single] demands
    exactly one row. *)

Inductive Response (T : Type) :=
| Ok (data : T)
| Err (error : JsError).
Arguments Ok {T} data.
Arguments Err {T} error.

Record SupabaseClient := mkSupabase {
  supabaseUrl : string;
  supabaseKey : string
}.

(** [createClient] of the Supabase library hands out a client, or throws
    when it does not accept the URL or the key.  Which ones it accepts is
    the library's matter: the constructor is stated for every such function,
    and [sample_createClient] is the instance the examples run with. *)
Class SupabaseLibrary := createClient : string -> string -> Completion SupabaseClient.

Definition sample_createClient : SupabaseLibrary :=
  fun url key =>
    if startsWith url "http" then Return (mkSupabase url key)
    else Throw (ConfigurationError "Invalid supabaseUrl").

(** Sorting for [.order(col, { ascending: false })]: larger keys first, rows
    of equal key in table order. *)
Fixpoint insert_desc {R} (key : R -> Z) (x : R) (l : list R) : list R :=
  match l with
  | [] => [x]
  | y :: l' => if key y <=? key x then x :: l else y :: insert_desc key x l'
  end.

Fixpoint sort_desc {R} (key : R -> Z) (l : list R) : list R :=
  match l with
  | [] => []
  | x :: l' => insert_desc key x (sort_desc key l')
  end.

Fixpoint assign_ids (next : Z) (news : list NewOrder.t) : list Order.t :=
  match news with
  | [] => []
  | o :: news' => with_id o next :: assign_ids (next + 1) news'
  end.

Module Postgrest.
Definition Query (R : Type) : Type := Tables -> list R.

(** [.from(table).select('*')] *)
Definition from {R} (table : Tables -> list R) : Query R := table.
Definition select {R} (q : Query R) : Query R := q.

(** [.eq(col, v)] *)
Definition eq {R V} (col : R -> V) (eqb : V -> V -> bool) (v : V)
    (q : Query R) : Query R :=
  fun t => filter (fun r => eqb (col r) v) (q t).

(** [.order(col, { ascending: false })] *)
Definition order_desc {R} (col : R -> Z) (q : Query R) : Query R :=
  fun t => sort_desc col (q t).

(** [await query] *)
Definition await {R} (q : Query R) : Async (Response (list R)) :=
  fun w =>
    match fault w with
    | Some m => (Return (Err (PostgrestError m)), w)
    | None => (Return (Ok (q (db w))), w)
    end.

(** [await query.single()]: anything but exactly one row is the error
    PGRST116. *)
Definition single {R} (q : Query R) : Async (Response R) :=
  fun w =>
    match fault w with
    | Some m => (Return (Err (PostgrestError m)), w)
    | None =>
        match q (db w) with
        | [r] => (Return (Ok r), w)
        | _ => (Return (Err (PostgrestError "PGRST116")), w)
        end
    end.

(** [await from('inventory').update(patch).eq(...)]: [patch] rewrites the
    rows that [matches] selects. *)
Definition update_inventory (patch : InventoryRow.t -> InventoryRow.t)
    (matches : InventoryRow.t -> bool) : Async (Response unit) :=
  fun w =>
    match fault w with
    | Some m => (Return (Err (PostgrestError m)), w)
    | None =>
        let t := db w in
        let inv := map (fun r => if matches r then patch r else r) (inventory t) in
        (Return (Ok tt),
         set_db (mkTables inv (orders t) (faqs t) (next_order_id t)) w)
    end.

(** [await from('orders').insert(news).select()]: the store numbers the
    new rows, keeps them, and answers them. *)
Definition insert_orders (news : list NewOrder.t) : Async (Response (list Order.t)) :=
  fun w =>
    match fault w with
    | Some m => (Return (Err (PostgrestError m)), w)
    | None =>
        let t := db w in
        let rows := assign_ids (next_order_id t) news in
        (Return (Ok rows),
         set_db (mkTables (inventory t) (orders t ++ rows) (faqs t)
                   (next_order_id t + Z.of_nat (List.length news))) w)
    end.
(** [.select('count')]: the aggregate; one row, holding the number of rows
    of the table. *)
Definition select_count {R} (q : Query R) : Query Z :=
  fun t => [Z.of_nat (List.length (q t))].
End Postgrest.

(** ** The Google Sheets client

    A request that fails rejects; which spreadsheet answers is the world's
    matter, so the identifier is passed along and not inspected. *)

Record SheetsClient := mkSheets {
  version : string;
  auth : string
}.

Module google.
Definition sheets (version auth : string) : SheetsClient :=
  mkSheets version auth.
End google.

Module spreadsheets.
(** [await sheets.spreadsheets.values.get({ spreadsheetId, range })], then
    [response.data.values]. *)
Definition values_get (spreadsheetId : option string) (range : string)
    : Async (option (list (list string))) :=
  fun w =>
    match fault w with
    | Some m => (Throw (TransportError m), w)
    | None =>
        if (range =? "Inventory!A2:E1000")%string
        then (Return (Inventory_values (sheet w)), w)
        else if (range =? "FAQs!A2:D1000")%string
        then (Return (FAQs_values (sheet w)), w)
        else (Throw (TransportError "Unable to parse range"), w)
    end.

(** [await sheets.spreadsheets.values.append({ spreadsheetId, range, ... })] *)
Definition values_append (spreadsheetId : option string) (range : string)
    (values : list (list Cell)) : Async unit :=
  fun w =>
    match fault w with
    | Some m => (Throw (TransportError m), w)
    | None =>
        if (range =? "Orders!A:G")%string
        then
          let s := sheet w in
          (Return tt,
           set_sheet (mkSheet (Inventory_values s) (FAQs_values s)
                        (Orders_rows s ++ values)) w)
        else (Throw (TransportError "Unable to parse range"), w)
    end.
End spreadsheets.

(** ** The service object *)

(** [process.env], as far as the constructor reads it. *)
Record Env := mkEnv {
  SUPABASE_URL : option string;
  SUPABASE_ANON_KEY : option string;
  GOOGLE_SHEETS_API_KEY : option string;
  GOOGLE_SHEETS_SPREADSHEET_ID : option string
}.

Record DatabaseService := mkService {
  supabase : option SupabaseClient;
  sheets : option SheetsClient;
  spreadsheetId : option string
}.

(** The constructor tests its variables for truthiness: an unset and an
    empty variable are both absent. *)
Definition present (v : option string) : option string :=
  match v with
  | Some EmptyString => None
  | Some s => Some s
  | None => None
  end.

(** [new DatabaseService()] in the environment [env]: the object, unless
    [createClient] throws. *)
Definition constructor {lib : SupabaseLibrary} (env : Env) : Completion DatabaseService :=
  match
    match present (SUPABASE_URL env), present (SUPABASE_ANON_KEY env) with
    | Some url, Some key =>
        match createClient url key with
        | Return client => Return (Some client)
        | Throw e => Throw e
        end
    | _, _ => Return None
    end
  with
  | Throw e => Throw e
  | Return supabase =>
      Return
        (mkService supabase
           (match present (GOOGLE_SHEETS_API_KEY env) with
            | Some key => Some (google.sheets "v4" key)
            | None => None
            end)
           (GOOGLE_SHEETS_SPREADSHEET_ID env))
  end.

(** Which backend the operations of a service object talk to: the
    relational one whenever it is configured. *)
Inductive Adapter := Relational | Spreadsheet | Unconfigured.

Definition adapter (this : DatabaseService) : Adapter :=
  match supabase this, sheets this with
  | Some _, _ => Relational
  | None, Some _ => Spreadsheet
  | None, None => Unconfigured
  end.

(** [if (error) throw error; return data] after a relational answer. *)
Definition unwrap {T} (r : Response T) : Async T :=
  match r with
  | Err error => throw error
  | Ok data => ret data
  end.

(** A step that does not touch the world. *)
Definition lift {A} (c : Completion A) : Async A := fun w => (c, w).

(** [Array.prototype.find] with a callback that may throw: the elements are
    tried in order, and the first one the callback accepts is the answer
    ([None] is [undefined]). *)
Fixpoint find_by {A} (p : A -> Completion bool) (l : list A) : Completion (option A) :=
  match l with
  | [] => Return None
  | x :: l' =>
      match p x with
      | Throw e => Throw e
      | Return true => Return (Some x)
      | Return false => find_by p l'
      end
  end.

(** The objects the relational answers carry. *)
Definition item_of_row (r : InventoryRow.t) : InventoryItem :=
  Item.mk (Num (InventoryRow.id r)) (Some (InventoryRow.name r))
    (InventoryRow.price r) (Num (InventoryRow.quantity r))
    (InventoryRow.is_available r).

Definition faq_of_row (r : FaqRow.t) : FAQ :=
  Faq.mk (Num (FaqRow.id r)) (Some (FaqRow.question r))
    (Some (FaqRow.answer r)) (FaqRow.is_active r).

Section Service.
Context {case : CaseMap}.

(** [cell?.toLowerCase() === 'true'] *)
Definition flag (cell : option string) : bool :=
  match cell with
  | Some s => (toLowerCase s =? "true")%string
  | None => false
  end.

(** The callback of [getInventory]'s [map]: a spreadsheet row read by
    position; a missing cell is [undefined]. *)
Definition item_of_cells (row : list string) : InventoryItem :=
  Item.mk (parseInt (nth_error row 0)) (nth_error row 1)
    (parseFloat (nth_error row 2)) (parseInt (nth_error row 3))
    (flag (nth_error row 4)).

Definition faq_of_cells (row : list string) : FAQ :=
  Faq.mk (parseInt (nth_error row 0)) (nth_error row 1) (nth_error row 2)
    (flag (nth_error row 3)).

(** *** Inventory *)

Definition getInventory (this : DatabaseService) : Async (list InventoryItem) :=
  tryCatch
    (match supabase this with
     | Some _ =>
         r <- Postgrest.await
                (Postgrest.eq InventoryRow.is_available Bool.eqb true
                   (Postgrest.select (Postgrest.from inventory))) ;;
         data <- unwrap r ;;
         ret (map item_of_row data)
     | None =>
         match sheets this with
         | Some _ =>
             values <- spreadsheets.values_get (spreadsheetId this)
                         "Inventory!A2:E1000" ;;
             ret (match values with
                  | Some rows => filter Item.is_available (map item_of_cells rows)
                  | None => []
                  end)
         | None => throw NoDatabaseConfiguration
         end
     end)
    (fun error =>
       logger.error "Error fetching inventory:" error ;; throw error).

(** [item.name.toLowerCase().includes(itemName.toLowerCase())] *)
Definition name_matches (itemName : string) (item : InventoryItem) : Completion bool :=
  match Item.name item with
  | Some n => Return (includes (toLowerCase n) (toLowerCase itemName))
  | None => Throw TypeError
  end.

Definition getItemByName (this : DatabaseService) (itemName : string)
    : Async (option InventoryItem) :=
  tryCatch
    (inventory <- getInventory this ;;
     lift (find_by (name_matches itemName) inventory))
    (fun error =>
       logger.error "Error finding item by name:" error ;; throw error).

Definition updateInventoryQuantity (this : DatabaseService)
    (itemId newQuantity : Z) : Async bool :=
  tryCatch
    (match supabase this with
     | Some _ =>
         r <- Postgrest.update_inventory
                (fun row =>
                   InventoryRow.mk (InventoryRow.id row) (InventoryRow.name row)
                     (InventoryRow.price row) newQuantity (0 <? newQuantity))
                (fun row => InventoryRow.id row =? itemId) ;;
         unwrap r ;;
         logger.info ("Updated inventory for item " ++ string_of_Z itemId
                      ++ ": quantity=" ++ string_of_Z newQuantity) ;;
         ret true
     | None =>
         logger.warn "Google Sheets inventory update not implemented" ;;
         ret false
     end)
    (fun error =>
       logger.error "Error updating inventory:" error ;; throw error).

(** *** Orders *)

Definition createOrder (this : DatabaseService) (orderData : OrderData.t)
    : Async Order.t :=
  tryCatch
    (now <- Date_now ;;
     let order :=
       NewOrder.mk (OrderData.customerPhone orderData)
         (OrderData.customerName orderData)
         (JSON_stringify (OrderData.items orderData))
         (OrderData.totalAmount orderData) "pending" now in
     match supabase this with
     | Some _ =>
         r <- Postgrest.insert_orders [order] ;;
         data <- unwrap r ;;
         match data with
         | first :: _ =>
             logger.info ("Order created: " ++ string_of_Z (Order.id first)) ;;
             ret first
         | [] => throw TypeError
         end
     | None =>
         match sheets this with
         | Some _ =>
             let values :=
               [[ CellString EmptyString;
                  CellString (NewOrder.customer_phone order);
                  match NewOrder.customer_name order with
                  | Some n => CellString n
                  | None => CellUndefined
                  end;
                  CellString (NewOrder.items order);
                  CellNumber (NewOrder.total_amount order);
                  CellString (NewOrder.status order);
                  CellInstant (NewOrder.created_at order) ]] in
             spreadsheets.values_append (spreadsheetId this) "Orders!A:G" values ;;
             logger.info "Order created in Google Sheets" ;;
             id <- Date_now ;;
             ret (with_id order id)
         | None => throw NoDatabaseConfiguration
         end
     end)
    (fun error =>
       logger.error "Error creating order:" error ;; throw error).

Definition getOrdersByPhone (this : DatabaseService) (customerPhone : string)
    : Async (list Order.t) :=
  tryCatch
    (match supabase this with
     | Some _ =>
         r <- Postgrest.await
                (Postgrest.order_desc Order.created_at
                   (Postgrest.eq Order.customer_phone String.eqb customerPhone
                      (Postgrest.select (Postgrest.from orders)))) ;;
         unwrap r
     | None =>
         logger.warn "Google Sheets order lookup not implemented" ;;
         ret []
     end)
    (fun error =>
       logger.error "Error fetching orders:" error ;; throw error).

(** [None] is the [null] the method answers without a relational client. *)
Definition getOrderById (this : DatabaseService) (orderId : Z)
    : Async (option Order.t) :=
  tryCatch
    (match supabase this with
     | Some _ =>
         r <- Postgrest.single
                (Postgrest.eq Order.id Z.eqb orderId
                   (Postgrest.select (Postgrest.from orders))) ;;
         data <- unwrap r ;;
         ret (Some data)
     | None => ret None
     end)
    (fun error =>
       logger.error "Error fetching order by ID:" error ;; throw error).

(** *** FAQs *)

Definition getFAQs (this : DatabaseService) : Async (list FAQ) :=
  tryCatch
    (match supabase this with
     | Some _ =>
         r <- Postgrest.await
                (Postgrest.eq FaqRow.is_active Bool.eqb true
                   (Postgrest.select (Postgrest.from faqs))) ;;
         data <- unwrap r ;;
         ret (map faq_of_row data)
     | None =>
         match sheets this with
         | Some _ =>
             values <- spreadsheets.values_get (spreadsheetId this)
                         "FAQs!A2:D1000" ;;
             ret (match values with
                  | Some rows => filter Faq.is_active (map faq_of_cells rows)
                  | None => []
                  end)
         | None => throw NoDatabaseConfiguration
         end
     end)
    (fun error =>
       logger.error "Error fetching FAQs:" error ;; throw error).

(** [faq.question.toLowerCase().includes(q) || faq.answer.toLowerCase().includes(q)];
    the answer is only looked at when the question does not match. *)
Definition faq_matches (query : string) (faq : FAQ) : Completion bool :=
  match Faq.question faq with
  | None => Throw TypeError
  | Some q =>
      if includes (toLowerCase q) (toLowerCase query) then Return true
      else
        match Faq.answer faq with
        | None => Throw TypeError
        | Some a => Return (includes (toLowerCase a) (toLowerCase query))
        end
  end.

Definition searchFAQ (this : DatabaseService) (query : string)
    : Async (option FAQ) :=
  tryCatch
    (faqs <- getFAQs this ;;
     lift (find_by (faq_matches query) faqs))
    (fun error =>
       logger.error "Error searching FAQ:" error ;; throw error).

End Service.

(** ** The start-up probe *)

(** [initializeDatabase]: one read against the relational store when it is
    configured.  An [error] in the answer is dropped without a word, and the
    handler of the [try] logs and does not rethrow. *)
Definition initializeDatabase (databaseService : DatabaseService) : Async unit :=
  tryCatch
    (match supabase databaseService with
     | Some _ =>
         r <- Postgrest.single
                (Postgrest.select_count (Postgrest.from inventory)) ;;
         match r with
         | Err _ => ret tt
         | Ok _ => logger.info "Supabase connected successfully"
         end
     | None =>
         match sheets databaseService with
         | Some _ => logger.info "Google Sheets configured"
         | None => logger.warn "No database configuration found"
         end
     end)
    (fun error => logger.error "Database initialization failed:" error).

(** ** The webhook routes

    The router of [routes/whatsapp.js]: the verification handshake on GET,
    the delivery of messages on POST.  A handler answers by a status and a
    body. *)

Record HttpResponse := mkResponse {
  statusCode : Z;
  sent : option string
}.

(** The three query parameters the handshake reads; [None] is a parameter
    the request does not carry. *)
Record VerifyQuery := mkVerify {
  hub_mode : option string;
  hub_verify_token : option string;
  hub_challenge : option string
}.

Definition option_string_eqb (a b : option string) : bool :=
  match a, b with
  | Some x, Some y => (x =? y)%string
  | None, None => true
  | _, _ => false
  end.

(** [router.get('/')]; the first argument is
    [process.env.WHATSAPP_WEBHOOK_VERIFY_TOKEN].  Both comparisons are
    [===], which also holds between two [undefined]. *)
Definition webhook_get (WHATSAPP_WEBHOOK_VERIFY_TOKEN : option string)
    (query : VerifyQuery) : Async HttpResponse :=
  if option_string_eqb (hub_mode query) (Some "subscribe")
     && option_string_eqb (hub_verify_token query) WHATSAPP_WEBHOOK_VERIFY_TOKEN
  then logger.info "Webhook verified successfully" ;;
       ret (mkResponse 200 (hub_challenge query))
  else logger.warn "Webhook verification failed" ;;
       ret (mkResponse 403 (Some "Forbidden")).

Module Message.
(** A message of the payload, with the members the router reads. *)
Record t := mk {
  type : string;
  from : string;
  text : option string
}.
End Message.

Module Contact.
Record t := mk {
  wa_id : string;
  profile : option string
}.
End Contact.

Module Value.
Record t := mk {
  messages : option (list Message.t);
  contacts : option (list Contact.t)
}.
End Value.

Module Change.
Record t := mk { value : option Value.t }.
End Change.

Module Entry.
Record t := mk { changes : option (list Change.t) }.
End Entry.

Module Body.
(** [req.body] *)
Record t := mk { entry : option (list Entry.t) }.
End Body.

(** [entry[0]?.changes?.[0]?.value] *)
Definition first_value (entry : list Entry.t) : option Value.t :=
  match nth_error entry 0 with
  | None => None
  | Some e =>
      match Entry.changes e with
      | None => None
      | Some changes =>
          match nth_error changes 0 with
          | None => None
          | Some c => Change.value c
          end
      end
  end.

(** What the router takes out of a body: [messages] and [contacts] of
    [entry[0].changes[0].value], when every step of that path exists and
    [messages] is there; [None] is the case answered at once. *)
Definition delivered (body : Body.t)
    : option (list Message.t * option (list Contact.t)) :=
  match Body.entry body with
  | None => None
  | Some entry =>
      match first_value entry with
      | None => None
      | Some v =>
          match Value.messages v with
          | None => None
          | Some messages => Some (messages, Value.contacts v)
          end
      end
  end.

Section Webhook.
(** [messageHandler.handleIncomingMessage], which lives outside these
    files: any asynchronous function of a message and the contact found for
    it ([None] when no contact has the sender's identifier). *)
Variable handleIncomingMessage : Message.t -> option Contact.t -> Async unit.

(** The body of [for (const message of messages)]. *)
Definition deliver (contacts : option (list Contact.t)) (m : Message.t) : Async unit :=
  if (Message.type m =? "text")%string
  then
    match contacts with
    | None => throw TypeError
    | Some cs =>
        handleIncomingMessage m
          (find (fun c => (Contact.wa_id c =? Message.from m)%string) cs)
    end
  else ret tt.

Fixpoint for_of (contacts : option (list Contact.t)) (messages : list Message.t)
    : Async unit :=
  match messages with
  | [] => ret tt
  | m :: rest => deliver contacts m ;; for_of contacts rest
  end.

(** [router.post('/')].  The first log line also carries the body printed
    as JSON, which is not kept here. *)
Definition webhook_post (body : Body.t) : Async HttpResponse :=
  tryCatch
    (logger.info "Received webhook payload:" ;;
     match delivered body with
     | None =>
         logger.info "No messages in webhook payload" ;;
         ret (mkResponse 200 (Some "OK"))
     | Some (messages, contacts) =>
         for_of contacts messages ;;
         ret (mkResponse 200 (Some "OK"))
     end)
    (fun error =>
       logger.error "Error processing webhook:" error ;;
       ret (mkResponse 500 (Some "Error processing webhook"))).

End Webhook.

(** ** Vocabulary of the specification *)

(** [first_match P l r]: [r] is the first element of [l] that satisfies
    [P], or nothing when no element does. *)
Inductive first_match {A} (P : A -> Prop) : list A -> option A -> Prop :=
| no_match l :
    Forall (fun x => ~ P x) l -> first_match P l None
| found before x after :
    Forall (fun y => ~ P y) before -> P x ->
    first_match P (before ++ x :: after) (Some x).

(** The callback [p] decides [P] on [x] without throwing. *)
Definition decides {A} (p : A -> Completion bool) (P : A -> Prop) (x : A) : Prop :=
  exists b, p x = Return b /\ (b = true <-> P x).

(** Newest first: every element is at least as recent as all that follow. *)
Definition newest_first {R} (key : R -> Z) : list R -> Prop :=
  StronglySorted (fun a b => key b <= key a).

(** A reader for the texts [JSON_stringify] writes, to say that they can
    be carried and read back: [expect p s] is [s] without its prefix [p],
    [take_int] reads a decimal integer off the front of a text. *)
Fixpoint expect (p s : string) : option string :=
  match p, s with
  | EmptyString, _ => Some s
  | String a p', String b s' => if Ascii.eqb a b then expect p' s' else None
  | String _ _, EmptyString => None
  end.

Fixpoint take_digits (s : string) (acc : option Z) : option Z * string :=
  match s with
  | EmptyString => (acc, s)
  | String c s' =>
      match digit_of 10 c with
      | Some d =>
          take_digits s'
            (Some (match acc with Some a => a * 10 + d | None => d end))
      | None => (acc, s)
      end
  end.

Definition take_int (s : string) : option (Z * string) :=
  let '(sign, s1) := strip_sign s in
  match take_digits s1 None with
  | (Some n, rest) => Some (sign * n, rest)
  | (None, _) => None
  end.

Definition safe_of (z : Z) : option SafeInteger :=
  match is_safe z as b return is_safe z = b -> option SafeInteger with
  | true => fun H => Some (mkSafe z H)
  | false => fun _ => None
  end eq_refl.

Definition decode_member (key s : string) : option (SafeInteger * string) :=
  match expect (dquote ++ key ++ dquote ++ ":") s with
  | None => None
  | Some s1 =>
      match take_int s1 with
      | None => None
      | Some (z, s2) =>
          match safe_of z with
          | None => None
          | Some n => Some (n, s2)
          end
      end
  end.

(** An object of two members with the given keys, in that order. *)
Definition decode_pair (key1 key2 s : string)
    : option (SafeInteger * SafeInteger * string) :=
  match expect "{" s with
  | None => None
  | Some s1 =>
      match decode_member key1 s1 with
      | None => None
      | Some (a, s2) =>
          match expect "," s2 with
          | None => None
          | Some s3 =>
              match decode_member key2 s3 with
              | None => None
              | Some (b, s4) =>
                  match expect "}" s4 with
                  | None => None
                  | Some s5 => Some (a, b, s5)
                  end
              end
          end
      end
  end.

Definition decode_item (s : string) : option (OrderItem.t * string) :=
  match decode_pair "itemId" "quantity" s with
  | Some (a, b, rest) => Some (OrderItem.mk a b itemId_first, rest)
  | None =>
      match decode_pair "quantity" "itemId" s with
      | Some (b, a, rest) => Some (OrderItem.mk a b quantity_first, rest)
      | None => None
      end
  end.

(** What follows an item: a comma and the next item, or the closing
    bracket; [fuel] bounds the number of items. *)
Fixpoint decode_rest (fuel : nat) (s : string) : option (list OrderItem.t) :=
  match fuel with
  | O => None
  | S fuel' =>
      match expect "]" s with
      | Some EmptyString => Some []
      | Some (String _ _) => None
      | None =>
          match expect "," s with
          | None => None
          | Some s1 =>
              match decode_item s1 with
              | None => None
              | Some (i, s2) => option_map (cons i) (decode_rest fuel' s2)
              end
          end
      end
  end.

Definition decode_items (s : string) : option (list OrderItem.t) :=
  match expect "[" s with
  | None => None
  | Some s1 =>
      match expect "]" s1 with
      | Some EmptyString => Some []
      | Some (String _ _) => None
      | None =>
          match decode_item s1 with
          | None => None
          | Some (i, s2) => option_map (cons i) (decode_rest (String.length s) s2)
          end
      end
  end.

(** A text at which a number being read ends: it is empty, or opens with
    something other than a digit. *)
Definition ends_number (rest : string) : Prop :=
  match rest with
  | EmptyString => True
  | String c _ => digit_of 10 c = None
  end.

(** The text after the first item of a sequence: every further item behind
    a comma, then the closing bracket. *)
Fixpoint items_tail (l : list OrderItem.t) : string :=
  match l with
  | [] => "]"
  | i :: l' => "," ++ stringify_item i ++ items_tail l'
  end.

(** [x > 0] agrees with the availability flag. *)
Definition availability_tracks_quantity (item : InventoryItem) : Prop :=
  Item.is_available item = gt0 (Item.quantity item).

(** What a [values.get] answers for a range without a single filled cell:
    no [values] member, or no row in it. *)
Definition no_row_data (values : option (list (list string))) : Prop :=
  values = None \/ values = Some [].

(** What [updateInventoryQuantity(itemId, newQuantity)] is to do to a row
    of the inventory table: the rows of that identifier get the new quantity
    and the flag recomputed from it, every other row stays. *)
Definition restocked (itemId newQuantity : Z) (before after : InventoryRow.t) : Prop :=
  if InventoryRow.id before =? itemId
  then InventoryRow.id after = InventoryRow.id before /\
       InventoryRow.name after = InventoryRow.name before /\
       InventoryRow.price after = InventoryRow.price before /\
       InventoryRow.quantity after = newQuantity /\
       InventoryRow.is_available after = (0 <? newQuantity)
  else after = before.

(** The log line a failed operation leaves before it rethrows. *)
Definition logged (msg : string) (e : JsError) (w : World) : World :=
  set_log (log w ++ [mkLog ERROR msg (Some e)]) w.

Section Vocabulary.
Context {case : CaseMap}.

(** [query] occurs in [text] once both are lower-cased. *)
Definition contains_ci (text query : string) : Prop :=
  exists p r, toLowerCase text = (p ++ toLowerCase query ++ r)%string.

Definition item_contains (query : string) (item : InventoryItem) : Prop :=
  exists n, Item.name item = Some n /\ contains_ci n query.

Definition faq_contains (query : string) (faq : FAQ) : Prop :=
  (exists q, Faq.question faq = Some q /\ contains_ci q query) \/
  (exists a, Faq.answer faq = Some a /\ contains_ci a query).
End Vocabulary.

(** ** Vocabulary of the further properties *)

(** Both stores are the same in [w'] as in [w]. *)
Definition same_stores (w w' : World) : Prop :=
  db w' = db w /\ sheet w' = sheet w.

(** From [w] to [w'] nothing happened but log lines: the stores, the clock
    and the network are as they were. *)
Definition only_logs (w w' : World) : Prop :=
  same_stores w w' /\ reads w' = reads w /\ fault w' = fault w /\
  time w' = time w /\ exists entries, log w' = (log w ++ entries)%list.

(** A computation that, whatever its outcome, only logs. *)
Definition benign {A} (c : Async A) : Prop :=
  forall w r w', c w = (r, w') -> only_logs w w'.

(** The log of [w] ends with the error line [msg], carrying [e]. *)
Definition ends_with_error (msg : string) (e : JsError) (w : World) : Prop :=
  exists before, log w = (before ++ [mkLog ERROR msg (Some e)])%list.

(** A variable of the environment that is set, and not to the empty
    string. *)
Definition nonempty (v : option string) : Prop :=
  exists s, v = Some s /\ s <> EmptyString.

(** Every row of the inventory table has its flag equal to
    [quantity > 0]. *)
Definition stock_consistent (t : Tables) : Prop :=
  Forall (fun r => InventoryRow.is_available r = (0 <? InventoryRow.quantity r))
    (inventory t).

(** The sequence behind [orders.id] is ahead of every identifier in the
    table, and no two rows share one. *)
Definition sequence_fresh (t : Tables) : Prop :=
  Forall (fun o => Order.id o < next_order_id t) (orders t) /\
  NoDup (map Order.id (orders t)).

(** The integers a Number holds exactly: up to [Number.MAX_SAFE_INTEGER]
    in magnitude. *)
Definition safe_integer (z : Z) : Prop := Z.abs z <= 9007199254740991.

(** What [updateInventoryQuantity(itemId, newQuantity)] makes of a row. *)
Definition restock (itemId newQuantity : Z) (row : InventoryRow.t) : InventoryRow.t :=
  if InventoryRow.id row =? itemId
  then InventoryRow.mk (InventoryRow.id row) (InventoryRow.name row)
         (InventoryRow.price row) newQuantity (0 <? newQuantity)
  else row.

Definition is_text (m : Message.t) : bool := (Message.type m =? "text")%string.

(** Asynchronous steps awaited one after the other; the first that throws
    ends the run. *)
Fixpoint in_turn (steps : list (Async unit)) : Async unit :=
  match steps with
  | [] => ret tt
  | step :: rest => step ;; in_turn rest
  end.

(** The contact of a message: the first one whose [wa_id] is the sender. *)
Definition contact_of (contacts : list Contact.t) (m : Message.t) : option Contact.t :=
  find (fun c => (Contact.wa_id c =? Message.from m)%string) contacts.

(** The world once the router has logged the arrival of a payload. *)
Definition received (w : World) : World :=
  set_log (log w ++ [mkLog INFO "Received webhook payload:" None]) w.

(** ** Sample worlds *)

(** A payload with an image and two text messages, and the contact of the
    first sender only. *)
Definition sample_body : Body.t :=
  Body.mk (Some [Entry.mk (Some [Change.mk (Some (Value.mk
    (Some [ Message.mk "image" "+1555" None;
            Message.mk "text" "+1555" (Some "2 burgers");
            Message.mk "text" "+1666" (Some "menu") ])
    (Some [ Contact.mk "+1555" (Some "Ada") ])))])]).

(** The same messages without the [contacts] member. *)
Definition body_without_contacts : Body.t :=
  Body.mk (Some [Entry.mk (Some [Change.mk (Some (Value.mk
    (Some [ Message.mk "image" "+1555" None;
            Message.mk "text" "+1555" (Some "2 burgers") ])
    None))])]).

(** A status notification: a value without messages. *)
Definition status_body : Body.t :=
  Body.mk (Some [Entry.mk (Some [Change.mk (Some (Value.mk None None))])]).

(** A handler that notes the sender in the log. *)
Definition noting_handler (m : Message.t) (c : option Contact.t) : Async unit :=
  logger.info (Message.from m).

(** A handler that fails on messages of unknown senders. *)
Definition strict_handler (m : Message.t) (c : option Contact.t) : Async unit :=
  match c with
  | Some _ => logger.info (Message.from m)
  | None => throw TypeError
  end.

(** A world whose clock stands still. *)
Definition still_clock_world : World :=
  mkWorld (mkTables [] [] [] 1) (mkSheet None None []) None
    (fun _ => 1700000000000) 0 [].

(** The network is down. *)
Definition offline_world : World :=
  mkWorld (mkTables [] [] [] 1) (mkSheet None None []) (Some "fetch failed")
    (fun _ => 0) 0 [].

(** A clock whose first readings are one millisecond apart. *)
Definition sample_clock (n : nat) : Z :=
  nth n [1700000000000; 1700000000001; 1700000000002; 1700000000003]
    1700000000004.

(** The objects the constructor makes of three environments: the
    relational pair set, the spreadsheet key and identifier set, nothing
    set. *)
Definition relational_env : Env :=
  mkEnv (Some "https://db.example") (Some "anon-key") None None.

Definition relational_service : DatabaseService :=
  mkService (Some (mkSupabase "https://db.example" "anon-key")) None None.

Definition spreadsheet_env : Env :=
  mkEnv None None (Some "api-key") (Some "sheet-1").

Definition spreadsheet_service : DatabaseService :=
  mkService None (Some (google.sheets "v4" "api-key")) (Some "sheet-1").

Definition unconfigured_env : Env := mkEnv None None None None.

Definition unconfigured_service : DatabaseService :=
  mkService None None None.

(** A URL the sample library refuses, with the spreadsheet configured as
    well. *)
Definition broken_env : Env :=
  mkEnv (Some "db.example") (Some "anon-key") (Some "api-key") (Some "sheet-1").

Definition burger_row : InventoryRow.t :=
  InventoryRow.mk 1 "Cheese Burger" (parseFloat (Some "5.99")) 4 true.

Definition refund_row : FaqRow.t :=
  FaqRow.mk 1 "What if my order is wrong?" "We issue a full REFUND." true.

(** [{ itemId: 1, quantity: 2 }] *)
Definition two_burgers : OrderItem.t :=
  OrderItem.mk (mkSafe 1 eq_refl) (mkSafe 2 eq_refl) itemId_first.

(** [{ quantity: 3, itemId: 7 }] *)
Definition three_wraps : OrderItem.t :=
  OrderItem.mk (mkSafe 7 eq_refl) (mkSafe 3 eq_refl) quantity_first.

Definition sample_order_data : OrderData.t :=
  OrderData.mk "+1555" None [two_burgers; three_wraps] (parseFloat (Some "19.98")).

(** An order of the same customer stamped half a second ahead of
    [sample_clock]'s first reading. *)
Definition later_order : Order.t :=
  Order.mk 1 "+1555" None "[]" (parseFloat (Some "5.00")) "pending"
    1700000000500.

(** An order of the same customer placed well before. *)
Definition earlier_order : Order.t :=
  Order.mk 1 "+1555" None "[]" (parseFloat (Some "7.50")) "delivered"
    1699999990000.

Definition sample_tables : Tables :=
  mkTables [burger_row] [] [refund_row] 1.

(** A sheet whose first inventory row is flagged available with nothing in
    stock. *)
Definition sample_sheet : Sheet :=
  mkSheet
    (Some [ ["1"; "Burger"; "5.99"; "0"; "TRUE"];
            ["2"; "Fries"; "2.50"; "7"; "false"];
            ["3"] ])
    (Some [ ["1"; "Opening hours?"; "Every day, refund desk included."; "true"] ])
    [].

Definition sample_world : World :=
  mkWorld sample_tables sample_sheet None sample_clock 0 [].

Definition empty_sheet_world : World :=
  mkWorld sample_tables (mkSheet None None []) None sample_clock 0 [].

Definition returning_world : World :=
  mkWorld (mkTables [burger_row] [earlier_order] [refund_row] 2) sample_sheet
    None sample_clock 0 [].

Definition skewed_world : World :=
  mkWorld (mkTables [burger_row] [later_order] [refund_row] 2) sample_sheet
    None sample_clock 0 [].

(** * Properties *)

(** ** Strings *)

Lemma startsWith_spec (q s : string) :
  startsWith s q = true <-> exists r, s = (q ++ r)%string.
Proof.
  revert s; induction q as [|b q IH]; intros s.
  - destruct s; simpl; split; eauto.
  - destruct s as [|a s]; simpl.
    + split; [discriminate | intros [r Hr]; discriminate].
    + rewrite andb_true_iff, Ascii.eqb_eq, IH. split.
      * intros [-> [r ->]]. now exists r.
      * intros [r Hr]. injection Hr as -> ->. eauto.
Qed.

Lemma includes_spec (s q : string) :
  includes s q = true <-> exists p r, s = (p ++ q ++ r)%string.
Proof.
  induction s as [|a s IH]; cbn [includes]; rewrite orb_true_iff, startsWith_spec.
  - split.
    + intros [[r Hr] | Hf]; [now exists EmptyString, r | discriminate].
    + intros (p & r & H). destruct p; [left; now exists r | discriminate].
  - rewrite IH. split.
    + intros [[r Hr] | (p & r & ->)].
      * now exists EmptyString, r.
      * now exists (String a p), r.
    + intros (p & r & H). destruct p as [|b p]; simpl in H.
      * left. now exists r.
      * right. injection H as _ ->. now exists p, r.
Qed.

(** ** The text of the items *)

Lemma nilzero_string d : d <> Decimal.Nil -> NilZero.string_of_uint d = NilEmpty.string_of_uint d.
Proof. now destruct d. Qed.

Lemma append_assoc (a b c : string) : ((a ++ b) ++ c = a ++ b ++ c)%string.
Proof. induction a; simpl; congruence. Qed.

Lemma length_append (a b : string) :
  String.length (a ++ b) = (String.length a + String.length b)%nat.
Proof. induction a; simpl; congruence. Qed.

Lemma expect_app p s : expect p (p ++ s) = Some s.
Proof. induction p; simpl; [reflexivity|]. now rewrite Ascii.eqb_refl. Qed.

Lemma take_digits_stop rest acc :
  ends_number rest -> take_digits rest acc = (acc, rest).
Proof. destruct rest; simpl; [reflexivity|]. now intros ->. Qed.

Ltac digit_step :=
  (change (digit_of 10 _) with (Some 0) || change (digit_of 10 _) with (Some 1)
   || change (digit_of 10 _) with (Some 2) || change (digit_of 10 _) with (Some 3)
   || change (digit_of 10 _) with (Some 4) || change (digit_of 10 _) with (Some 5)
   || change (digit_of 10 _) with (Some 6) || change (digit_of 10 _) with (Some 7)
   || change (digit_of 10 _) with (Some 8) || change (digit_of 10 _) with (Some 9));
  cbv iota beta.

Lemma take_digits_acc d acc rest :
  ends_number rest ->
  take_digits (NilEmpty.string_of_uint d ++ rest) (Some (Zpos acc)) =
  (Some (Zpos (Pos.of_uint_acc d acc)), rest).
Proof.
  intros Hrest. revert acc.
  induction d; intros acc;
    cbn [NilEmpty.string_of_uint append take_digits Pos.of_uint_acc];
    [now apply take_digits_stop|..];
    digit_step; rewrite <- IHd; do 2 f_equal; lia.
Qed.

Lemma take_digits_zero d rest :
  ends_number rest ->
  take_digits (NilEmpty.string_of_uint d ++ rest) (Some 0) =
  (Some (Z.of_N (Pos.of_uint d)), rest).
Proof.
  intros Hrest.
  induction d; cbn [NilEmpty.string_of_uint append take_digits Pos.of_uint];
    [now apply take_digits_stop|..];
    digit_step; [exact IHd | now apply take_digits_acc ..].
Qed.

Lemma take_digits_start d rest :
  d <> Decimal.Nil ->
  take_digits (NilEmpty.string_of_uint d ++ rest) None =
  take_digits (NilEmpty.string_of_uint d ++ rest) (Some 0).
Proof. destruct d; [easy|..]; intros _; reflexivity. Qed.

Lemma take_digits_positive p rest :
  ends_number rest ->
  take_digits (NilEmpty.string_of_uint (Pos.to_uint p) ++ rest) None =
  (Some (Zpos p), rest).
Proof.
  intros Hrest. rewrite take_digits_start by apply Unsigned.to_uint_nonnil.
  now rewrite take_digits_zero, Unsigned.of_to.
Qed.

Lemma strip_sign_digits d rest :
  d <> Decimal.Nil ->
  strip_sign (NilEmpty.string_of_uint d ++ rest) =
  (1, (NilEmpty.string_of_uint d ++ rest)%string).
Proof. destruct d; [easy|..]; intros _; reflexivity. Qed.

Lemma take_int_string_of_Z z rest :
  ends_number rest -> take_int (string_of_Z z ++ rest) = Some (z, rest).
Proof.
  intros Hrest. unfold take_int, string_of_Z.
  destruct z as [|p|p]; cbn [Z.to_int NilZero.string_of_int].
  - change (NilZero.string_of_uint (Decimal.D0 Decimal.Nil) ++ rest)%string
      with (String "0" rest).
    cbn [strip_sign take_digits]. digit_step. now rewrite take_digits_stop.
  - rewrite nilzero_string, strip_sign_digits by apply Unsigned.to_uint_nonnil.
    now rewrite take_digits_positive.
  - rewrite nilzero_string by apply Unsigned.to_uint_nonnil.
    cbn [append strip_sign]. now rewrite take_digits_positive.
Qed.

Lemma same_value (a b : SafeInteger) : value a = value b -> a = b.
Proof.
  destruct a as [x Hx], b as [y Hy]. simpl. intros ->.
  f_equal. apply UIP_dec. apply bool_dec.
Qed.

Lemma safe_of_value n : safe_of (value n) = Some n.
Proof.
  unfold safe_of.
  assert (H : forall b (e : is_safe (value n) = b),
             b = true ->
             exists m,
               match b as b0 return is_safe (value n) = b0 -> option SafeInteger with
               | true => fun H => Some (mkSafe (value n) H)
               | false => fun _ => None
               end e = Some m /\ value m = value n).
  { intros b e ->. eexists. split; reflexivity. }
  destruct (H _ eq_refl (value_safe n)) as (m & -> & Hm).
  f_equal. now apply same_value.
Qed.

Lemma decode_member_app key n rest :
  ends_number rest ->
  decode_member key (stringify_member key n ++ rest) = Some (n, rest).
Proof.
  intros Hrest. unfold decode_member, stringify_member.
  replace ((dquote ++ key ++ dquote ++ ":" ++ string_of_Z (value n)) ++ rest)%string
    with ((dquote ++ key ++ dquote ++ ":") ++ string_of_Z (value n) ++ rest)%string
    by (now rewrite !append_assoc).
  now rewrite expect_app, take_int_string_of_Z, safe_of_value.
Qed.

Lemma decode_pair_app key1 key2 a b rest :
  decode_pair key1 key2
    ("{" ++ stringify_member key1 a ++ "," ++ stringify_member key2 b ++ "}" ++ rest) =
  Some (a, b, rest).
Proof.
  unfold decode_pair.
  rewrite expect_app, decode_member_app by reflexivity.
  rewrite expect_app, decode_member_app by reflexivity.
  now rewrite expect_app.
Qed.

Lemma decode_item_app i rest :
  decode_item (stringify_item i ++ rest) = Some (i, rest).
Proof.
  destruct i as [a b []]; unfold decode_item, stringify_item; cbn [OrderItem.keys
    OrderItem.itemId OrderItem.quantity]; rewrite !append_assoc.
  - now rewrite decode_pair_app.
  - replace (decode_pair "itemId" "quantity" _) with (@None (SafeInteger * SafeInteger * string))
      by reflexivity.
    now rewrite decode_pair_app.
Qed.

Lemma expect_other a b s :
  Ascii.eqb a b = false -> expect (String a EmptyString) (String b s) = None.
Proof. simpl. now intros ->. Qed.

Lemma expect_same a s : expect (String a EmptyString) (String a s) = Some s.
Proof. simpl. now rewrite Ascii.eqb_refl. Qed.

Lemma decode_rest_tail l :
  forall fuel, (List.length l < fuel)%nat ->
  decode_rest fuel (items_tail l) = Some l.
Proof.
  induction l as [|i l IH]; intros [|fuel] Hfuel; try (simpl in Hfuel; lia).
  - reflexivity.
  - cbn [items_tail decode_rest].
    change ("," ++ stringify_item i ++ items_tail l)%string
      with (String "," (stringify_item i ++ items_tail l)).
    rewrite expect_other by reflexivity.
    rewrite expect_same, decode_item_app, IH by (simpl in Hfuel; lia).
    reflexivity.
Qed.

Lemma join_tail i l :
  (join_comma (map stringify_item (i :: l)) ++ "]")%string =
  (stringify_item i ++ items_tail l)%string.
Proof.
  revert i. induction l as [|j l IH]; intros i.
  - reflexivity.
  - change (join_comma (map stringify_item (i :: j :: l)))
      with (stringify_item i ++ "," ++ join_comma (map stringify_item (j :: l)))%string.
    rewrite !append_assoc, IH. reflexivity.
Qed.

Lemma items_tail_length l : (List.length l < String.length (items_tail l))%nat.
Proof.
  induction l as [|i l IH]; simpl; [lia|].
  rewrite length_append. lia.
Qed.

Lemma stringify_item_head i : exists s, stringify_item i = String "{" s.
Proof. destruct i as [a b []]; eexists; reflexivity. Qed.

(** What [JSON_stringify] writes, the reader reads back: the text carries
    the items whole. *)
Lemma decode_items_stringify items :
  decode_items (JSON_stringify items) = Some items.
Proof.
  destruct items as [|i l]; [reflexivity|].
  unfold JSON_stringify, decode_items.
  change ("[" ++ join_comma (map stringify_item (i :: l)) ++ "]")%string
    with (String "[" (join_comma (map stringify_item (i :: l)) ++ "]")).
  rewrite expect_same, join_tail.
  destruct (stringify_item_head i) as [s Hs].
  replace (expect "]" (stringify_item i ++ items_tail l))
    with (@None string)
    by (rewrite Hs; symmetry; now apply expect_other).
  rewrite decode_item_app, decode_rest_tail; [reflexivity|].
  cbn [String.length]. rewrite length_append.
  pose proof (items_tail_length l). lia.
Qed.

Lemma JSON_stringify_injective a b :
  JSON_stringify a = JSON_stringify b -> a = b.
Proof.
  intros H. apply (f_equal decode_items) in H.
  rewrite !decode_items_stringify in H. congruence.
Qed.

(** ** Searching a sequence *)

Lemma find_by_first_match {A} (p : A -> Completion bool) (P : A -> Prop) l :
  Forall (decides p P) l ->
  exists r, find_by p l = Return r /\ first_match P l r.
Proof.
  induction 1 as [|x l (b & Hp & Hb) _ (r & Hr & Hm)]; simpl.
  - exists None. split; [reflexivity | now constructor].
  - rewrite Hp. destruct b.
    + exists (Some x). split; [reflexivity|].
      apply (found P [] x l); [constructor | now apply Hb].
    + assert (Hx : ~ P x) by (intros HP; apply Hb in HP; discriminate).
      exists r. split; [assumption|].
      inversion Hm as [l0 Hall | before y after Hall Hy]; subst.
      * constructor. now constructor.
      * apply (found P (x :: before) y after); [now constructor | assumption].
Qed.

Lemma first_match_functional {A} (P : A -> Prop) l r1 r2 :
  first_match P l r1 -> first_match P l r2 -> r1 = r2.
Proof.
  assert (clash : forall before x after,
             Forall (fun y => ~ P y) (before ++ x :: after) -> P x -> False).
  { intros before x after Hall Hx. rewrite Forall_forall in Hall.
    apply (Hall x); [apply in_elt | assumption]. }
  intros H1 H2.
  destruct H1 as [l Hn | b1 x1 a1 Hb1 Hx1].
  - inversion H2 as [|b2 x2 a2 Hb2 Hx2 Heq]; subst; [reflexivity|].
    exfalso; eauto.
  - remember (b1 ++ x1 :: a1)%list as l eqn:El.
    destruct H2 as [l Hn | b2 x2 a2 Hb2 Hx2].
    + subst l. exfalso; eauto.
    + f_equal. revert b2 El Hb2.
      induction b1 as [|y b1 IH]; intros [|z b2] El Hb2; simpl in El.
      * now injection El.
      * injection El as -> _. now inversion Hb2.
      * injection El as -> _. now inversion Hb1.
      * injection El as _ El. inversion Hb1; inversion Hb2; subst. eauto.
Qed.

(** ** Sorting *)

Lemma insert_desc_perm {R} (key : R -> Z) x l :
  Permutation (insert_desc key x l) (x :: l).
Proof.
  induction l as [|y l IH]; simpl; [reflexivity|].
  destruct (key y <=? key x); [reflexivity|].
  rewrite IH. apply perm_swap.
Qed.

Lemma sort_desc_perm {R} (key : R -> Z) l : Permutation (sort_desc key l) l.
Proof.
  induction l as [|x l IH]; simpl; [constructor|].
  rewrite insert_desc_perm. now constructor.
Qed.

Lemma insert_desc_sorted {R} (key : R -> Z) x l :
  newest_first key l -> newest_first key (insert_desc key x l).
Proof.
  unfold newest_first.
  induction 1 as [|y l Hs IH Hy]; simpl.
  - repeat constructor.
  - destruct (key y <=? key x) eqn:E.
    + apply Z.leb_le in E. constructor; [now constructor|].
      constructor; [assumption|].
      rewrite Forall_forall in Hy |- *. intros z Hz.
      specialize (Hy z Hz). lia.
    + apply Z.leb_gt in E. constructor; [assumption|].
      rewrite Forall_forall in Hy |- *. intros z Hz.
      apply (Permutation_in _ (insert_desc_perm key x l)) in Hz.
      destruct Hz as [<- | Hz]; [lia | auto].
Qed.

Lemma sort_desc_sorted {R} (key : R -> Z) l : newest_first key (sort_desc key l).
Proof.
  induction l; simpl; [constructor | now apply insert_desc_sorted].
Qed.

(** A row strictly newer than all the others, added at the end of the table,
    comes out first. *)
Lemma sort_desc_newest {R} (key : R -> Z) l x :
  Forall (fun y => key y < key x) l ->
  sort_desc key (l ++ [x]) = x :: sort_desc key l.
Proof.
  induction 1 as [|y l Hy _ IH]; simpl; [reflexivity|].
  rewrite IH. simpl.
  now replace (key x <=? key y) with false by (symmetry; apply Z.leb_gt; lia).
Qed.

(** ** Which backend answers *)

Lemma adapter_relational this :
  adapter this = Relational -> exists c, supabase this = Some c.
Proof.
  unfold adapter. destruct (supabase this) as [c|]; [eauto|].
  destruct (sheets this); discriminate.
Qed.

Lemma adapter_spreadsheet this :
  adapter this = Spreadsheet ->
  supabase this = None /\ exists c, sheets this = Some c.
Proof.
  unfold adapter. destruct (supabase this); [discriminate|].
  destruct (sheets this) as [c|]; [eauto | discriminate].
Qed.

Lemma adapter_unconfigured this :
  adapter this = Unconfigured -> supabase this = None /\ sheets this = None.
Proof.
  unfold adapter. destruct (supabase this); [discriminate|].
  destruct (sheets this); [discriminate | auto].
Qed.

(** With neither backend named in the environment the constructor does
    not raise, whatever the library, and the object it makes has no
    client. *)
Lemma constructor_unconfigured {lib : SupabaseLibrary} env :
  (present (SUPABASE_URL env) = None \/ present (SUPABASE_ANON_KEY env) = None) ->
  present (GOOGLE_SHEETS_API_KEY env) = None ->
  constructor env = Return (mkService None None (GOOGLE_SHEETS_SPREADSHEET_ID env)).
Proof.
  unfold constructor. intros [H | H] ->; rewrite H; trivial.
  now destruct (present (SUPABASE_URL env)).
Qed.

(** The sample objects are the constructor's. *)
Lemma sample_services :
  @constructor sample_createClient relational_env = Return relational_service /\
  @constructor sample_createClient spreadsheet_env = Return spreadsheet_service /\
  @constructor sample_createClient unconfigured_env = Return unconfigured_service.
Proof. repeat split. Qed.

(** Unfolds the plumbing of [Async] so that a call can be computed. *)
Ltac run :=
  unfold tryCatch, bind, unwrap, ret, throw, lift,
    logger.error, logger.info, logger.warn, write_log, Date_now,
    Postgrest.await, Postgrest.single, Postgrest.update_inventory,
    Postgrest.insert_orders, spreadsheets.values_get,
    spreadsheets.values_append; simpl.

Section Facade.
Context {case : CaseMap}.

(** ** Reading the inventory and the FAQs *)

Lemma getInventory_relational this w :
  adapter this = Relational -> fault w = None ->
  getInventory this w =
  (Return (map item_of_row
             (filter (fun r => Bool.eqb (InventoryRow.is_available r) true)
                (inventory (db w)))), w).
Proof.
  intros [c Hc]%adapter_relational Hf.
  unfold getInventory. rewrite Hc. run. now rewrite Hf.
Qed.

Lemma getInventory_spreadsheet this w :
  adapter this = Spreadsheet -> fault w = None ->
  getInventory this w =
  (Return (match Inventory_values (sheet w) with
           | Some rows => filter Item.is_available (map item_of_cells rows)
           | None => []
           end), w).
Proof.
  intros [Hs [c Hc]]%adapter_spreadsheet Hf.
  unfold getInventory. rewrite Hs, Hc. run. now rewrite Hf.
Qed.

Lemma getFAQs_relational this w :
  adapter this = Relational -> fault w = None ->
  getFAQs this w =
  (Return (map faq_of_row
             (filter (fun r => Bool.eqb (FaqRow.is_active r) true)
                (faqs (db w)))), w).
Proof.
  intros [c Hc]%adapter_relational Hf.
  unfold getFAQs. rewrite Hc. run. now rewrite Hf.
Qed.

Lemma getFAQs_spreadsheet this w :
  adapter this = Spreadsheet -> fault w = None ->
  getFAQs this w =
  (Return (match FAQs_values (sheet w) with
           | Some rows => filter Faq.is_active (map faq_of_cells rows)
           | None => []
           end), w).
Proof.
  intros [Hs [c Hc]]%adapter_spreadsheet Hf.
  unfold getFAQs. rewrite Hs, Hc. run. now rewrite Hf.
Qed.

(** A read that returns went through one of the two backends, with the
    network up, and left the world as it was. *)
Lemma getInventory_returns this w inv w1 :
  getInventory this w = (Return inv, w1) ->
  w1 = w /\ fault w = None /\
  (adapter this = Relational \/ adapter this = Spreadsheet).
Proof.
  unfold getInventory, adapter.
  destruct (supabase this), (sheets this); run;
    destruct (fault w); simpl; intros H; inversion H; auto.
Qed.

Lemma getFAQs_returns this w l w1 :
  getFAQs this w = (Return l, w1) ->
  w1 = w /\ fault w = None /\
  (adapter this = Relational \/ adapter this = Spreadsheet).
Proof.
  unfold getFAQs, adapter.
  destruct (supabase this), (sheets this); run;
    destruct (fault w); simpl; intros H; inversion H; auto.
Qed.

(** A cell that passes the flag test exists. *)
Lemma flag_true_defined row i :
  flag (nth_error row i) = true -> (i < List.length row)%nat.
Proof.
  intros H. apply nth_error_Some. intros E. rewrite E in H. discriminate.
Qed.

Lemma nth_error_defined {A} (row : list A) i :
  (i < List.length row)%nat -> exists c, nth_error row i = Some c.
Proof.
  intros H. destruct (nth_error row i) eqn:E; [eauto|].
  apply nth_error_None in E. lia.
Qed.

(** Every object [getInventory] returns is flagged available, and carries
    a name. *)
Lemma getInventory_items this w inv w1 :
  getInventory this w = (Return inv, w1) ->
  Forall (fun item => Item.is_available item = true /\
                      exists n, Item.name item = Some n) inv.
Proof.
  intros H. destruct (getInventory_returns _ _ _ _ H) as (-> & Hf & [Ha | Ha]).
  - rewrite (getInventory_relational _ _ Ha Hf) in H. injection H as <-.
    apply Forall_forall. intros item (r & <- & Hr)%in_map_iff.
    apply filter_In in Hr as [_ Hr]. simpl. split; [|eauto].
    now destruct (InventoryRow.is_available r).
  - rewrite (getInventory_spreadsheet _ _ Ha Hf) in H. injection H as <-.
    destruct (Inventory_values (sheet w)) as [rows|]; [|constructor].
    apply Forall_forall. intros item [Hin Hav]%filter_In. split; [assumption|].
    apply in_map_iff in Hin as (row & <- & _).
    unfold item_of_cells in *; cbn [Item.is_available Item.name] in *.
    apply flag_true_defined in Hav. apply nth_error_defined. lia.
Qed.

Lemma getFAQs_items this w l w1 :
  getFAQs this w = (Return l, w1) ->
  Forall (fun faq => Faq.is_active faq = true /\
                     (exists q, Faq.question faq = Some q) /\
                     (exists a, Faq.answer faq = Some a)) l.
Proof.
  intros H. destruct (getFAQs_returns _ _ _ _ H) as (-> & Hf & [Ha | Ha]).
  - rewrite (getFAQs_relational _ _ Ha Hf) in H. injection H as <-.
    apply Forall_forall. intros faq (r & <- & Hr)%in_map_iff.
    apply filter_In in Hr as [_ Hr]. simpl. split; [|eauto].
    now destruct (FaqRow.is_active r).
  - rewrite (getFAQs_spreadsheet _ _ Ha Hf) in H. injection H as <-.
    destruct (FAQs_values (sheet w)) as [rows|]; [|constructor].
    apply Forall_forall. intros faq [Hin Hav]%filter_In. split; [assumption|].
    apply in_map_iff in Hin as (row & <- & _).
    unfold faq_of_cells in *; cbn [Faq.is_active Faq.question Faq.answer] in *.
    apply flag_true_defined in Hav.
    split; apply nth_error_defined; lia.
Qed.

(** C1 (amended): every inventory item in the sequence returned by
    [getInventory()] is flagged available, on either adapter; the flag is
    the stored one and is not compared with the quantity on a read. *)
Theorem getInventory_only_available this w inv w1 :
  getInventory this w = (Return inv, w1) ->
  Forall (fun item => Item.is_available item = true) inv.
Proof.
  intros H%getInventory_items.
  eapply Forall_impl; [|exact H]. now intros item [Hav _].
Qed.

(** C10: on the spreadsheet adapter, when the fetched range holds no row
    data at all, [getInventory()] and [getFAQs()] each return the empty
    sequence, and do not raise. *)
Theorem empty_range_reads_empty this w :
  adapter this = Spreadsheet -> fault w = None ->
  (no_row_data (Inventory_values (sheet w)) -> getInventory this w = (Return [], w)) /\
  (no_row_data (FAQs_values (sheet w)) -> getFAQs this w = (Return [], w)).
Proof.
  intros Ha Hf. split; intros [E | E].
  - now rewrite getInventory_spreadsheet, E.
  - now rewrite getInventory_spreadsheet, E.
  - now rewrite getFAQs_spreadsheet, E.
  - now rewrite getFAQs_spreadsheet, E.
Qed.

(** ** Searching by text *)

Lemma name_matches_decides itemName item :
  (exists n, Item.name item = Some n) ->
  decides (name_matches itemName) (item_contains itemName) item.
Proof.
  intros [n Hn]. unfold decides, name_matches, item_contains. rewrite Hn.
  eexists; split; [reflexivity|]. rewrite includes_spec. split.
  - intros H. now exists n.
  - intros (n' & [= <-] & H). exact H.
Qed.

Lemma faq_matches_decides query faq :
  (exists q, Faq.question faq = Some q) ->
  (exists a, Faq.answer faq = Some a) ->
  decides (faq_matches query) (faq_contains query) faq.
Proof.
  intros [q Hq] [a Ha]. unfold decides, faq_matches, faq_contains.
  rewrite Hq, Ha.
  destruct (includes (toLowerCase q) (toLowerCase query)) eqn:E.
  - exists true. split; [reflexivity|]. split; [|reflexivity].
    intros _. left. exists q. split; [reflexivity|]. now apply includes_spec.
  - eexists; split; [reflexivity|]. rewrite includes_spec. split.
    + intros H. right. now exists a.
    + intros [(q' & [= <-] & H) | (a' & [= <-] & H)]; [|exact H].
      apply includes_spec in H. congruence.
Qed.

(** C6: for every name, [getItemByName(name)] returns the first item, in
    the order of the sequence [getInventory()] returns, whose name contains
    the query once both are lower-cased, and the absence value when no item
    does. *)
Theorem getItemByName_first_match this itemName w inv w1 :
  getInventory this w = (Return inv, w1) ->
  exists result,
    getItemByName this itemName w = (Return result, w1) /\
    first_match (item_contains itemName) inv result.
Proof.
  intros H.
  destruct (find_by_first_match (name_matches itemName) (item_contains itemName) inv)
    as (result & Hfind & Hfirst).
  { eapply Forall_impl; [|exact (getInventory_items _ _ _ _ H)].
    intros item [_ Hn]. now apply name_matches_decides. }
  exists result. split; [|exact Hfirst].
  unfold getItemByName. run. now rewrite H, Hfind.
Qed.

(** C7: for every query, [searchFAQ(query)] returns the first FAQ, in the
    order of the sequence [getFAQs()] returns, whose question or whose answer
    contains the query once both are lower-cased (a match in the answer alone
    is enough), and the absence value when no FAQ matches. *)
Theorem searchFAQ_first_match this query w l w1 :
  getFAQs this w = (Return l, w1) ->
  exists result,
    searchFAQ this query w = (Return result, w1) /\
    first_match (faq_contains query) l result.
Proof.
  intros H.
  destruct (find_by_first_match (faq_matches query) (faq_contains query) l)
    as (result & Hfind & Hfirst).
  { eapply Forall_impl; [|exact (getFAQs_items _ _ _ _ H)].
    intros faq (_ & Hq & Ha). now apply faq_matches_decides. }
  exists result. split; [|exact Hfirst].
  unfold searchFAQ. run. now rewrite H, Hfind.
Qed.

End Facade.

(** ** Without a backend *)

Section Unconfigured.
Context {case : CaseMap}.

(** C2: what each operation does on a service object that has neither
    client.  The five operations that read or append through a backend
    throw the configuration error; [updateInventoryQuantity],
    [getOrdersByPhone] and [getOrderById] fall into the branch written for
    the spreadsheet and answer [false], the empty sequence and [null]. *)
Theorem unconfigured_operations this w itemName itemId newQuantity orderData
    customerPhone orderId query :
  adapter this = Unconfigured ->
  fst (getInventory this w) = Throw NoDatabaseConfiguration /\
  fst (getItemByName this itemName w) = Throw NoDatabaseConfiguration /\
  fst (createOrder this orderData w) = Throw NoDatabaseConfiguration /\
  fst (getFAQs this w) = Throw NoDatabaseConfiguration /\
  fst (searchFAQ this query w) = Throw NoDatabaseConfiguration /\
  fst (updateInventoryQuantity this itemId newQuantity w) = Return false /\
  fst (getOrdersByPhone this customerPhone w) = Return [] /\
  fst (getOrderById this orderId w) = Return None.
Proof.
  intros [Hs Hg]%adapter_unconfigured.
  unfold getItemByName, searchFAQ, getInventory, getFAQs, createOrder,
    updateInventoryQuantity, getOrdersByPhone, getOrderById.
  rewrite Hs, Hg. repeat split.
Qed.

End Unconfigured.

(** ** Orders and stock on the relational backend *)

Lemma Forall2_map_right {A B} (R : A -> B -> Prop) (f : A -> B) l :
  (forall x, R x (f x)) -> Forall2 R l (map f l).
Proof. intros H. induction l; simpl; constructor; auto. Qed.

(** C4: on the relational adapter [updateInventoryQuantity(itemId,
    newQuantity)] gives the rows of that identifier the quantity
    [newQuantity] and the flag [newQuantity > 0], leaves everything else, and
    returns [true]; on the spreadsheet adapter it changes neither store, logs
    a warning, and returns [false] without raising. *)
Theorem updateInventoryQuantity_spec this itemId newQuantity w :
  (adapter this = Relational -> fault w = None ->
   exists w',
     updateInventoryQuantity this itemId newQuantity w = (Return true, w') /\
     Forall2 (restocked itemId newQuantity)
       (inventory (db w)) (inventory (db w')) /\
     orders (db w') = orders (db w) /\ faqs (db w') = faqs (db w) /\
     sheet w' = sheet w) /\
  (adapter this = Spreadsheet ->
   exists w',
     updateInventoryQuantity this itemId newQuantity w = (Return false, w') /\
     db w' = db w /\ sheet w' = sheet w /\
     log w' = (log w ++
               [mkLog WARN "Google Sheets inventory update not implemented" None])%list).
Proof.
  split.
  - intros [c Hc]%adapter_relational Hf.
    unfold updateInventoryQuantity. rewrite Hc. run. rewrite Hf. simpl.
    eexists. split; [reflexivity|]. simpl. repeat split.
    apply Forall2_map_right. intros row. unfold restocked.
    now destruct (InventoryRow.id row =? itemId).
  - intros [Hs _]%adapter_spreadsheet.
    unfold updateInventoryQuantity. rewrite Hs. run.
    eexists. split; [reflexivity|]. auto.
Qed.

(** C5: on the spreadsheet adapter [getOrdersByPhone(phone)] returns the
    empty sequence and [getOrderById(id)] reports not-found, whatever the
    argument and whatever the state of the network; neither raises. *)
Theorem spreadsheet_order_lookups this w customerPhone orderId :
  adapter this = Spreadsheet ->
  (exists w',
     getOrdersByPhone this customerPhone w = (Return [], w') /\
     db w' = db w /\ sheet w' = sheet w) /\
  getOrderById this orderId w = (Return None, w).
Proof.
  intros [Hs _]%adapter_spreadsheet.
  unfold getOrdersByPhone, getOrderById. rewrite Hs. run.
  split; [|reflexivity]. eexists. split; [reflexivity|]. auto.
Qed.

(** C3 (amended): on the relational adapter [getOrderById(id)] returns the
    matching order when exactly one row has that identifier; when no row has
    it, the error the single-row fetch reports is logged and rethrown, as is
    every other error of the backend. *)
Theorem getOrderById_relational this orderId w :
  adapter this = Relational ->
  let matching := filter (fun o => Order.id o =? orderId) (orders (db w)) in
  (fault w = None -> forall order, matching = [order] ->
   getOrderById this orderId w = (Return (Some order), w)) /\
  (fault w = None -> matching = [] ->
   getOrderById this orderId w =
   (Throw (PostgrestError "PGRST116"),
    logged "Error fetching order by ID:" (PostgrestError "PGRST116") w)) /\
  (forall m, fault w = Some m ->
   getOrderById this orderId w =
   (Throw (PostgrestError m),
    logged "Error fetching order by ID:" (PostgrestError m) w)).
Proof.
  intros [c Hc]%adapter_relational matching. subst matching.
  unfold getOrderById, Postgrest.eq, Postgrest.select, Postgrest.from.
  rewrite Hc. run. repeat split.
  - intros -> order ->. reflexivity.
  - intros -> ->. reflexivity.
  - intros m ->. reflexivity.
Qed.

(** What [createOrder] does on the relational adapter when the network is
    up: one clock reading, one insertion, one log line. *)
Lemma createOrder_relational this orderData w :
  adapter this = Relational -> fault w = None ->
  let t := db w in
  let order :=
    Order.mk (next_order_id t) (OrderData.customerPhone orderData)
      (OrderData.customerName orderData)
      (JSON_stringify (OrderData.items orderData))
      (OrderData.totalAmount orderData) "pending" (time w (reads w)) in
  createOrder this orderData w =
  (Return order,
   mkWorld
     (mkTables (inventory t) (orders t ++ [order]) (faqs t) (next_order_id t + 1))
     (sheet w) (fault w) (time w) (S (reads w))
     (log w ++ [mkLog INFO ("Order created: " ++ string_of_Z (next_order_id t)) None])).
Proof.
  intros [c Hc]%adapter_relational Hf.
  unfold createOrder. rewrite Hc. run.
  match goal with |- _ = ?r => remember r as outcome end.
  rewrite Hf. subst outcome. reflexivity.
Qed.

Lemma createOrder_spreadsheet this orderData w :
  adapter this = Spreadsheet -> fault w = None ->
  exists w',
    createOrder this orderData w =
    (Return
       (Order.mk (time w (S (reads w))) (OrderData.customerPhone orderData)
          (OrderData.customerName orderData)
          (JSON_stringify (OrderData.items orderData))
          (OrderData.totalAmount orderData) "pending" (time w (reads w))),
     w') /\
    db w' = db w /\
    List.length (Orders_rows (sheet w')) = S (List.length (Orders_rows (sheet w))).
Proof.
  intros [Hs [c Hc]]%adapter_spreadsheet Hf.
  unfold createOrder. rewrite Hs, Hc. run. rewrite Hf. simpl.
  eexists. split; [reflexivity|]. simpl. split; [reflexivity|].
  rewrite length_app. simpl. lia.
Qed.

(** C8: for every [orderData], on a configured service whose backend
    answers, [createOrder(orderData)] returns an order with status
    ["pending"], [created_at] the clock reading taken at the call, and
    [items] the JSON text of [orderData.items], from which the items are
    read back whole; on the relational adapter its identifier is the one
    the store's sequence generates, on the spreadsheet adapter it is the
    clock reading taken once the row is appended. *)
Theorem createOrder_spec this orderData w :
  adapter this <> Unconfigured -> fault w = None ->
  exists order w',
    createOrder this orderData w = (Return order, w') /\
    Order.status order = "pending" /\
    Order.created_at order = time w (reads w) /\
    Order.items order = JSON_stringify (OrderData.items orderData) /\
    decode_items (Order.items order) = Some (OrderData.items orderData) /\
    Order.customer_phone order = OrderData.customerPhone orderData /\
    Order.total_amount order = OrderData.totalAmount orderData /\
    match adapter this with
    | Relational =>
        Order.id order = next_order_id (db w) /\
        orders (db w') = (orders (db w) ++ [order])%list
    | Spreadsheet => Order.id order = time w (S (reads w))
    | Unconfigured => False
    end.
Proof.
  intros Hcfg Hf. destruct (adapter this) eqn:Ha; [| |contradiction].
  - rewrite (createOrder_relational _ orderData _ Ha Hf).
    do 2 eexists. split; [reflexivity|]. cbn [Order.status Order.created_at
      Order.items Order.customer_phone Order.total_amount Order.id db orders].
    repeat split. apply decode_items_stringify.
  - destruct (createOrder_spreadsheet _ orderData _ Ha Hf) as (w' & -> & _).
    do 2 eexists. split; [reflexivity|]. cbn [Order.status Order.created_at
      Order.items Order.customer_phone Order.total_amount Order.id].
    repeat split. apply decode_items_stringify.
Qed.

Lemma getOrdersByPhone_runs this customerPhone w :
  adapter this = Relational -> fault w = None ->
  getOrdersByPhone this customerPhone w =
  (Return (sort_desc Order.created_at
             (filter (fun o => (Order.customer_phone o =? customerPhone)%string)
                (orders (db w)))), w).
Proof.
  intros [c Hc]%adapter_relational Hf.
  unfold getOrdersByPhone. rewrite Hc. run. now rewrite Hf.
Qed.

(** C9 (amended): on the relational adapter [getOrdersByPhone(phone)]
    returns exactly the orders whose [customer_phone] is [phone], newest
    first by [created_at]; an order just created is the first element of
    that sequence provided every order the customer already had carries a
    strictly earlier [created_at]. *)
Theorem getOrdersByPhone_relational this w :
  adapter this = Relational -> fault w = None ->
  (forall customerPhone, exists result,
     getOrdersByPhone this customerPhone w = (Return result, w) /\
     Permutation result
       (filter (fun o => (Order.customer_phone o =? customerPhone)%string)
          (orders (db w))) /\
     newest_first Order.created_at result) /\
  (forall orderData,
     (forall o, In o (orders (db w)) ->
                Order.customer_phone o = OrderData.customerPhone orderData ->
                Order.created_at o < time w (reads w)) ->
     exists order w' rest,
       createOrder this orderData w = (Return order, w') /\
       getOrdersByPhone this (OrderData.customerPhone orderData) w' =
       (Return (order :: rest), w')).
Proof.
  intros Ha Hf. split.
  - intros customerPhone. eexists. split; [now apply getOrdersByPhone_runs|].
    split; [apply sort_desc_perm | apply sort_desc_sorted].
  - intros orderData Hold.
    rewrite (createOrder_relational _ orderData _ Ha Hf).
    do 3 eexists. split; [reflexivity|].
    rewrite getOrdersByPhone_runs by (simpl; assumption). simpl.
    rewrite filter_app. simpl. rewrite String.eqb_refl.
    rewrite sort_desc_newest; [reflexivity|].
    apply Forall_forall. intros o [Hin Hp]%filter_In. simpl.
    apply Hold; [assumption | now apply String.eqb_eq].
Qed.

(** * The theorems at work on the sample worlds *)

(** ** Inventory *)

Lemma getInventory_only_available_witness :
  @getInventory ascii_case spreadsheet_service sample_world =
  (Return [Item.mk (Num 1) (Some "Burger") (parseFloat (Some "5.99")) (Num 0) true],
   sample_world) /\
  Forall (fun item => Item.is_available item = true)
    [Item.mk (Num 1) (Some "Burger") (parseFloat (Some "5.99")) (Num 0) true].
Proof.
  split; [reflexivity|].
  apply (@getInventory_only_available ascii_case spreadsheet_service
           sample_world _ sample_world).
  reflexivity.
Defined.

(** C1, as first stated, fails: the sheet of [sample_world] flags its first
    row available with a quantity of zero, and [getInventory()] returns that
    row as it is. *)
Lemma getInventory_stale_flag :
  ~ (forall this w inv w1,
       @getInventory ascii_case this w = (Return inv, w1) ->
       Forall availability_tracks_quantity inv).
Proof.
  intros H.
  specialize (H spreadsheet_service sample_world _ _ eq_refl).
  inversion H as [|item rest Hitem _]. discriminate Hitem.
Qed.

Lemma empty_range_reads_empty_witness :
  @getInventory ascii_case spreadsheet_service empty_sheet_world =
  (Return [], empty_sheet_world) /\
  @getFAQs ascii_case spreadsheet_service empty_sheet_world =
  (Return [], empty_sheet_world).
Proof.
  destruct (@empty_range_reads_empty ascii_case spreadsheet_service
              empty_sheet_world eq_refl eq_refl) as [Hinv Hfaq].
  split; [apply Hinv | apply Hfaq]; left; reflexivity.
Defined.

Lemma getItemByName_first_match_witness :
  exists result,
    @getItemByName ascii_case relational_service "BURGER" sample_world =
    (Return result, sample_world) /\
    first_match (@item_contains ascii_case "BURGER") [item_of_row burger_row] result.
Proof.
  apply (@getItemByName_first_match ascii_case relational_service "BURGER"
           sample_world).
  reflexivity.
Defined.

Lemma searchFAQ_first_match_witness :
  exists result,
    @searchFAQ ascii_case relational_service "refund" sample_world =
    (Return result, sample_world) /\
    first_match (@faq_contains ascii_case "refund") [faq_of_row refund_row] result.
Proof.
  apply (@searchFAQ_first_match ascii_case relational_service "refund"
           sample_world).
  reflexivity.
Defined.

(** ** Without a backend *)

Lemma unconfigured_operations_witness :
  adapter unconfigured_service = Unconfigured /\
  fst (@getItemByName ascii_case unconfigured_service "burger" sample_world) =
  Throw NoDatabaseConfiguration /\
  fst (updateInventoryQuantity unconfigured_service 1 5 sample_world) = Return false /\
  fst (getOrdersByPhone unconfigured_service "+1555" sample_world) = Return [] /\
  fst (getOrderById unconfigured_service 1 sample_world) = Return None.
Proof.
  split; [reflexivity|].
  destruct (@unconfigured_operations ascii_case unconfigured_service sample_world
              "burger" 1 5 sample_order_data "+1555" 1 "refund" eq_refl)
    as (_ & Hname & _ & _ & _ & Hupdate & Hphone & Hid).
  repeat split; assumption.
Defined.

(** ** Stock and orders *)

Lemma updateInventoryQuantity_spec_witness :
  (exists w',
     updateInventoryQuantity relational_service 1 0 sample_world = (Return true, w') /\
     Forall2 (restocked 1 0) [burger_row] (inventory (db w')) /\
     orders (db w') = [] /\ faqs (db w') = [refund_row] /\
     sheet w' = sample_sheet) /\
  (exists w',
     updateInventoryQuantity spreadsheet_service 1 5 sample_world = (Return false, w') /\
     db w' = sample_tables /\ sheet w' = sample_sheet /\
     log w' = [mkLog WARN "Google Sheets inventory update not implemented" None]).
Proof.
  split.
  - exact (proj1 (updateInventoryQuantity_spec relational_service 1 0 sample_world)
             eq_refl eq_refl).
  - exact (proj2 (updateInventoryQuantity_spec spreadsheet_service 1 5 sample_world)
             eq_refl).
Defined.

Lemma spreadsheet_order_lookups_witness :
  (exists w',
     getOrdersByPhone spreadsheet_service "+1555" skewed_world = (Return [], w') /\
     db w' = db skewed_world /\ sheet w' = sheet skewed_world) /\
  getOrderById spreadsheet_service 1 skewed_world = (Return None, skewed_world).
Proof.
  exact (spreadsheet_order_lookups spreadsheet_service skewed_world "+1555" 1 eq_refl).
Defined.

Lemma getOrderById_relational_witness :
  getOrderById relational_service 1 skewed_world = (Return (Some later_order), skewed_world) /\
  getOrderById relational_service 7 skewed_world =
  (Throw (PostgrestError "PGRST116"),
   logged "Error fetching order by ID:" (PostgrestError "PGRST116") skewed_world).
Proof.
  split.
  - exact (proj1 (getOrderById_relational relational_service 1 skewed_world eq_refl)
             eq_refl later_order eq_refl).
  - exact (proj1 (proj2 (getOrderById_relational relational_service 7 skewed_world eq_refl))
             eq_refl eq_refl).
Defined.

(** C3, as first stated, fails: no row of [skewed_world] has the identifier
    7, the network is up, and [getOrderById(7)] throws. *)
Lemma getOrderById_missing_row_raises :
  ~ (forall this orderId w,
       adapter this = Relational -> fault w = None ->
       (forall o, In o (orders (db w)) -> Order.id o <> orderId) ->
       exists w', getOrderById this orderId w = (Return None, w')).
Proof.
  intros H.
  destruct (H relational_service 7 skewed_world eq_refl eq_refl) as [w' Hrun].
  - intros o [<- | []]. discriminate.
  - discriminate Hrun.
Qed.

Lemma createOrder_spec_witness :
  exists order w',
    createOrder spreadsheet_service sample_order_data sample_world = (Return order, w') /\
    Order.status order = "pending" /\
    Order.created_at order = 1700000000000 /\
    Order.items order = JSON_stringify [two_burgers; three_wraps] /\
    decode_items (Order.items order) = Some [two_burgers; three_wraps] /\
    Order.customer_phone order = "+1555" /\
    Order.total_amount order = parseFloat (Some "19.98") /\
    Order.id order = 1700000000001.
Proof.
  apply (createOrder_spec spreadsheet_service sample_order_data sample_world).
  - discriminate.
  - reflexivity.
Defined.

Lemma getOrdersByPhone_relational_witness :
  (exists result,
     getOrdersByPhone relational_service "+1555" skewed_world = (Return result, skewed_world) /\
     Permutation result [later_order] /\
     newest_first Order.created_at result) /\
  (exists order w' rest,
     createOrder relational_service sample_order_data returning_world = (Return order, w') /\
     getOrdersByPhone relational_service "+1555" w' = (Return (order :: rest), w')).
Proof.
  split.
  - exact (proj1 (getOrdersByPhone_relational relational_service skewed_world
                    eq_refl eq_refl) "+1555").
  - apply (proj2 (getOrdersByPhone_relational relational_service returning_world
                    eq_refl eq_refl) sample_order_data).
    intros o [<- | []] _. reflexivity.
Defined.

(** C9, as first stated, fails in its last part: [skewed_world] already
    holds an order of the customer stamped later than the clock reads, and
    the order just created comes second. *)
Lemma new_order_not_first :
  ~ (forall this orderData w order w1,
       adapter this = Relational -> fault w = None ->
       createOrder this orderData w = (Return order, w1) ->
       exists rest,
         getOrdersByPhone this (OrderData.customerPhone orderData) w1 =
         (Return (order :: rest), w1)).
Proof.
  intros H.
  destruct (createOrder relational_service sample_order_data skewed_world)
    as [[order|e] w1] eqn:E.
  - destruct (H relational_service sample_order_data skewed_world _ _
                eq_refl eq_refl E) as [rest Hrun].
    vm_compute in E. injection E as <- <-.
    vm_compute in Hrun. discriminate Hrun.
  - vm_compute in E. discriminate E.
Qed.

(** * Further properties of the service *)

(** ** Choosing the backend *)

Lemma present_nonempty v : (exists s, present v = Some s) <-> nonempty v.
Proof.
  unfold nonempty. destruct v as [[|c s]|]; simpl; split.
  - intros [s [=]].
  - intros (s & [= <-] & H). now contradiction H.
  - intros _. eexists. split; [reflexivity | discriminate].
  - intros _. eauto.
  - intros [s [=]].
  - intros (s & [=] & _).
Qed.

Lemma present_absent v : present v = None <-> ~ nonempty v.
Proof.
  rewrite <- present_nonempty. destruct (present v); split.
  - discriminate.
  - intros H. exfalso. eauto.
  - intros _ [s [=]].
  - reflexivity.
Qed.

(** X1: when both variables of the relational backend are set and not
    empty, the constructor's outcome is [createClient]'s: what that throws
    the constructor throws, also with the spreadsheet configured, and
    otherwise the object talks to the relational backend.  When one of the
    two is unset or empty the constructor does not raise, and the object
    talks to the spreadsheet exactly when the API key is set and not empty,
    and to nothing otherwise. *)
Theorem constructor_adapter {lib : SupabaseLibrary} env :
  (forall url key,
     present (SUPABASE_URL env) = Some url ->
     present (SUPABASE_ANON_KEY env) = Some key ->
     match createClient url key with
     | Throw e => constructor env = Throw e
     | Return client =>
         exists this,
           constructor env = Return this /\
           supabase this = Some client /\ adapter this = Relational
     end) /\
  (~ (nonempty (SUPABASE_URL env) /\ nonempty (SUPABASE_ANON_KEY env)) ->
   exists this,
     constructor env = Return this /\
     supabase this = None /\
     spreadsheetId this = GOOGLE_SHEETS_SPREADSHEET_ID env /\
     (adapter this = Spreadsheet <-> nonempty (GOOGLE_SHEETS_API_KEY env)) /\
     (adapter this = Unconfigured <-> ~ nonempty (GOOGLE_SHEETS_API_KEY env))).
Proof.
  split.
  - intros url key Hu Hk. unfold constructor. rewrite Hu, Hk.
    destruct (createClient url key) as [client|e]; [|reflexivity].
    eexists. split; [reflexivity|]. split; reflexivity.
  - rewrite <- !present_nonempty. intros Hno.
    assert (Hnone : match present (SUPABASE_URL env), present (SUPABASE_ANON_KEY env) with
                    | Some url, Some key =>
                        match createClient url key with
                        | Return client => Return (Some client)
                        | Throw e => Throw e
                        end
                    | _, _ => Return None
                    end = Return None).
    { destruct (present (SUPABASE_URL env)) as [u|]; [|reflexivity].
      destruct (present (SUPABASE_ANON_KEY env)) as [k|]; [|reflexivity].
      exfalso. apply Hno. eauto. }
    unfold constructor. rewrite Hnone.
    eexists. split; [reflexivity|]. unfold adapter. cbn [supabase sheets spreadsheetId].
    destruct (present (GOOGLE_SHEETS_API_KEY env)) as [g|] eqn:Eg;
      (split; [reflexivity|]); (split; [reflexivity|]); split; split; intros E.
    + apply present_nonempty. eauto.
    + reflexivity.
    + discriminate E.
    + exfalso. apply E, present_nonempty. eauto.
    + discriminate E.
    + apply present_nonempty in E as [s Hs]. congruence.
    + now apply present_absent.
    + reflexivity.
Qed.

Lemma constructor_adapter_witness :
  @constructor sample_createClient broken_env =
  Throw (ConfigurationError "Invalid supabaseUrl") /\
  exists this,
    @constructor sample_createClient spreadsheet_env = Return this /\
    supabase this = None /\
    spreadsheetId this = Some "sheet-1" /\
    (adapter this = Spreadsheet <-> nonempty (Some "api-key")) /\
    (adapter this = Unconfigured <-> ~ nonempty (Some "api-key")).
Proof.
  split.
  - apply (proj1 (@constructor_adapter sample_createClient broken_env)
             "db.example" "anon-key" eq_refl eq_refl).
  - apply (proj2 (@constructor_adapter sample_createClient spreadsheet_env)).
    intros [[s [[=] _]] _].
Defined.

(** ** What an operation can leave behind *)

Lemma only_logs_refl w : only_logs w w.
Proof.
  unfold only_logs, same_stores. repeat split.
  exists []. now rewrite app_nil_r.
Qed.

Lemma only_logs_trans w1 w2 w3 :
  only_logs w1 w2 -> only_logs w2 w3 -> only_logs w1 w3.
Proof.
  unfold only_logs, same_stores.
  intros ([Hd Hs] & Hr & Hf & Ht & l1 & Hl1) ([Hd' Hs'] & Hr' & Hf' & Ht' & l2 & Hl2).
  repeat split; try congruence.
  exists (l1 ++ l2)%list. now rewrite Hl2, Hl1, app_assoc.
Qed.

Lemma benign_ret {A} (a : A) : benign (ret a).
Proof. intros w r w' [= _ <-]. apply only_logs_refl. Qed.

Lemma benign_throw {A} e : benign (@throw A e).
Proof. intros w r w' [= _ <-]. apply only_logs_refl. Qed.

Lemma benign_lift {A} (c : Completion A) : benign (lift c).
Proof. intros w r w' [= _ <-]. apply only_logs_refl. Qed.

Lemma benign_write_log lv msg d : benign (write_log lv msg d).
Proof.
  intros w r w' [= _ <-]. unfold only_logs, same_stores. simpl.
  repeat split. eauto.
Qed.

Lemma benign_error msg e : benign (logger.error msg e).
Proof. apply benign_write_log. Qed.

Lemma benign_info msg : benign (logger.info msg).
Proof. apply benign_write_log. Qed.

Lemma benign_warn msg : benign (logger.warn msg).
Proof. apply benign_write_log. Qed.

Lemma benign_bind {A B} (c : Async A) (k : A -> Async B) :
  benign c -> (forall a, benign (k a)) -> benign (bind c k).
Proof.
  intros Hc Hk w r w'. unfold bind.
  destruct (c w) as [[a|e] w1] eqn:E; intros H.
  - eapply only_logs_trans; [eapply Hc, E | eapply Hk, H].
  - injection H as _ <-. eapply Hc, E.
Qed.

Lemma benign_tryCatch {A} (body : Async A) handler :
  benign body -> (forall e, benign (handler e)) -> benign (tryCatch body handler).
Proof.
  intros Hb Hh w r w'. unfold tryCatch.
  destruct (body w) as [[a|e] w1] eqn:E; intros H.
  - injection H as _ <-. eapply Hb, E.
  - eapply only_logs_trans; [eapply Hb, E | eapply Hh, H].
Qed.

Lemma benign_unwrap {T} (r : Response T) : benign (unwrap r).
Proof. destruct r; [apply benign_ret | apply benign_throw]. Qed.

Lemma benign_await {R} (q : Postgrest.Query R) : benign (Postgrest.await q).
Proof.
  intros w r w'. unfold Postgrest.await.
  destruct (fault w); intros [= _ <-]; apply only_logs_refl.
Qed.

Lemma benign_single {R} (q : Postgrest.Query R) : benign (Postgrest.single q).
Proof.
  intros w r w'. unfold Postgrest.single.
  destruct (fault w); [|destruct (q (db w)) as [|x [|y l]]];
    intros [= _ <-]; apply only_logs_refl.
Qed.

Lemma benign_values_get id range : benign (spreadsheets.values_get id range).
Proof.
  intros w r w'. unfold spreadsheets.values_get.
  destruct (fault w); [|destruct (range =? _)%string; [|destruct (range =? _)%string]];
    intros [= _ <-]; apply only_logs_refl.
Qed.

(** Decomposes a goal [benign c] along the structure of [c]. *)
Ltac benign_step :=
  first [ apply benign_tryCatch | apply benign_bind | apply benign_ret
        | apply benign_throw | apply benign_lift | apply benign_error
        | apply benign_info | apply benign_warn | apply benign_unwrap
        | apply benign_await | apply benign_single | apply benign_values_get
        | match goal with
          | |- benign (match ?x with _ => _ end) => destruct x
          end ];
  intros.

Section Traces.
Context {case : CaseMap}.

Lemma benign_getInventory this : benign (getInventory this).
Proof. unfold getInventory. repeat benign_step. Qed.

Lemma benign_getFAQs this : benign (getFAQs this).
Proof. unfold getFAQs. repeat benign_step. Qed.

(** X2: the six reading operations leave both stores, the clock and the
    network as they found them, whether they return or throw; all they add
    is log lines. *)
Theorem reads_only_log this itemName customerPhone orderId query :
  benign (getInventory this) /\
  benign (getItemByName this itemName) /\
  benign (getOrdersByPhone this customerPhone) /\
  benign (getOrderById this orderId) /\
  benign (getFAQs this) /\
  benign (searchFAQ this query).
Proof.
  split; [apply benign_getInventory|].
  split; [unfold getItemByName; repeat benign_step|].
  split; [unfold getOrdersByPhone; repeat benign_step|].
  split; [unfold getOrderById; repeat benign_step|].
  split; [apply benign_getFAQs|].
  unfold searchFAQ. repeat benign_step.
Qed.

End Traces.

(** ** Log, then rethrow *)

Lemma rethrown {A} (body : Async A) msg w e w' :
  tryCatch body (fun error => logger.error msg error ;; throw error) w = (Throw e, w') ->
  exists w0, body w = (Throw e, w0) /\ w' = logged msg e w0.
Proof.
  unfold tryCatch. destruct (body w) as [[a|e0] w0]; [discriminate|].
  run. intros [= <- <-]. eauto.
Qed.

Lemma rethrows {A} (body : Async A) msg w e w0 :
  body w = (Throw e, w0) ->
  tryCatch body (fun error => logger.error msg error ;; throw error) w =
  (Throw e, logged msg e w0).
Proof. unfold tryCatch. now intros ->. Qed.

Lemma logged_ends msg e w : ends_with_error msg e (logged msg e w).
Proof. now exists (log w). Qed.

Section Failures.
Context {case : CaseMap}.

(** X3: whenever one of the eight operations throws, the last line of the
    log is its own error line, carrying the very error it throws. *)
Theorem thrown_errors_are_logged this w e w' itemName itemId newQuantity
    orderData customerPhone orderId query :
  (getInventory this w = (Throw e, w') ->
   ends_with_error "Error fetching inventory:" e w') /\
  (getItemByName this itemName w = (Throw e, w') ->
   ends_with_error "Error finding item by name:" e w') /\
  (updateInventoryQuantity this itemId newQuantity w = (Throw e, w') ->
   ends_with_error "Error updating inventory:" e w') /\
  (createOrder this orderData w = (Throw e, w') ->
   ends_with_error "Error creating order:" e w') /\
  (getOrdersByPhone this customerPhone w = (Throw e, w') ->
   ends_with_error "Error fetching orders:" e w') /\
  (getOrderById this orderId w = (Throw e, w') ->
   ends_with_error "Error fetching order by ID:" e w') /\
  (getFAQs this w = (Throw e, w') ->
   ends_with_error "Error fetching FAQs:" e w') /\
  (searchFAQ this query w = (Throw e, w') ->
   ends_with_error "Error searching FAQ:" e w').
Proof.
  repeat split; intros (w0 & _ & ->)%rethrown; apply logged_ends.
Qed.

(** X4: a write that throws has written nothing: after a failed
    [updateInventoryQuantity] or [createOrder] both stores are as before. *)
Theorem failed_writes_change_nothing this w e w' :
  (forall itemId newQuantity,
     updateInventoryQuantity this itemId newQuantity w = (Throw e, w') ->
     same_stores w w') /\
  (forall orderData,
     createOrder this orderData w = (Throw e, w') -> same_stores w w').
Proof.
  split; intros *.
  - unfold updateInventoryQuantity.
    destruct (supabase this); run; destruct (fault w); simpl;
      intros [= _ <-]; now split.
  - unfold createOrder.
    destruct (supabase this); [|destruct (sheets this)]; run;
      destruct (fault w); simpl; intros [= _ <-]; now split.
Qed.

(** X5: when the [getInventory] it calls throws, [getItemByName] throws the
    same error, which is by then in the log twice, once per method.  On the
    spreadsheet adapter that is the only way it throws: a row that passed
    the flag test has a fifth cell, hence a second one, so the search finds
    a name on every item. *)
Theorem getItemByName_throws this itemName w e :
  (forall w0,
     getInventory this w = (Throw e, w0) ->
     getItemByName this itemName w =
     (Throw e, logged "Error finding item by name:" e w0) /\
     ends_with_error "Error fetching inventory:" e w0) /\
  (adapter this = Spreadsheet ->
   forall w',
     getItemByName this itemName w = (Throw e, w') ->
     exists w0,
       getInventory this w = (Throw e, w0) /\
       w' = logged "Error finding item by name:" e w0).
Proof.
  split.
  - intros w0 E. split.
    + unfold getItemByName. apply rethrows. unfold bind. now rewrite E.
    + apply rethrown in E as (w00 & _ & ->). apply logged_ends.
  - intros Ha w' (w1 & Hbody & ->)%rethrown. unfold bind in Hbody.
    destruct (getInventory this w) as [[inv|e0] w0] eqn:E.
    + destruct (getInventory_returns _ _ _ _ E) as (-> & Hf & _).
      rewrite (getInventory_spreadsheet _ _ Ha Hf) in E. injection E as <-.
      destruct (find_by_first_match (name_matches itemName)
                  (item_contains itemName)
                  (match Inventory_values (sheet w) with
                   | Some rows => filter Item.is_available (map item_of_cells rows)
                   | None => []
                   end)) as (r & Hr & _).
      { destruct (Inventory_values (sheet w)) as [rows|]; [|constructor].
        apply Forall_forall. intros item [Hin Hav]%filter_In.
        apply name_matches_decides.
        apply in_map_iff in Hin as (row & <- & _).
        unfold item_of_cells in *; cbn [Item.is_available Item.name] in *.
        apply flag_true_defined in Hav. apply nth_error_defined. lia. }
      unfold lift in Hbody. injection Hbody as Hthrow _.
      discriminate (eq_trans (eq_sym Hthrow) Hr).
    + injection Hbody as <- <-. now exists w0.
Qed.

(** X6: likewise, when [getFAQs] throws, [searchFAQ] throws the same error,
    logged twice; and on the spreadsheet adapter that is the only way it
    throws, a row with a fourth cell having a question and an answer. *)
Theorem searchFAQ_throws this query w e :
  (forall w0,
     getFAQs this w = (Throw e, w0) ->
     searchFAQ this query w = (Throw e, logged "Error searching FAQ:" e w0) /\
     ends_with_error "Error fetching FAQs:" e w0) /\
  (adapter this = Spreadsheet ->
   forall w',
     searchFAQ this query w = (Throw e, w') ->
     exists w0,
       getFAQs this w = (Throw e, w0) /\
       w' = logged "Error searching FAQ:" e w0).
Proof.
  split.
  - intros w0 E. split.
    + unfold searchFAQ. apply rethrows. unfold bind. now rewrite E.
    + apply rethrown in E as (w00 & _ & ->). apply logged_ends.
  - intros Ha w' (w1 & Hbody & ->)%rethrown. unfold bind in Hbody.
    destruct (getFAQs this w) as [[l|e0] w0] eqn:E.
    + destruct (getFAQs_returns _ _ _ _ E) as (-> & Hf & _).
      rewrite (getFAQs_spreadsheet _ _ Ha Hf) in E. injection E as <-.
      destruct (find_by_first_match (faq_matches query) (faq_contains query)
                  (match FAQs_values (sheet w) with
                   | Some rows => filter Faq.is_active (map faq_of_cells rows)
                   | None => []
                   end)) as (r & Hr & _).
      { destruct (FAQs_values (sheet w)) as [rows|]; [|constructor].
        apply Forall_forall. intros faq [Hin Hav]%filter_In.
        apply in_map_iff in Hin as (row & <- & _).
        unfold faq_of_cells in *;
          cbn [Faq.is_active Faq.question Faq.answer] in *.
        apply flag_true_defined in Hav.
        apply faq_matches_decides; apply nth_error_defined; lia. }
      unfold lift in Hbody. injection Hbody as Hthrow _.
      discriminate (eq_trans (eq_sym Hthrow) Hr).
    + injection Hbody as <- <-. now exists w0.
Qed.

Lemma includes_empty s : includes s EmptyString = true.
Proof. apply includes_spec. now exists EmptyString, s. Qed.

(** X7: when lower-casing the empty string gives the empty string, the
    empty query matches everything: [getItemByName('')] returns the first
    item of the inventory and [searchFAQ('')] the first FAQ, or nothing when
    the sequence is empty. *)
Theorem empty_query_returns_first this w :
  toLowerCase EmptyString = EmptyString ->
  (forall inv w1, getInventory this w = (Return inv, w1) ->
   getItemByName this EmptyString w = (Return (hd_error inv), w1)) /\
  (forall l w1, getFAQs this w = (Return l, w1) ->
   searchFAQ this EmptyString w = (Return (hd_error l), w1)).
Proof.
  intros Hlow. split.
  - intros inv w1 E. unfold getItemByName, tryCatch, bind, lift. rewrite E.
    apply getInventory_items in E.
    destruct E as [|item inv [_ [n Hn]] _]; [reflexivity|]. simpl.
    unfold name_matches. now rewrite Hn, Hlow, includes_empty.
  - intros l w1 E. unfold searchFAQ, tryCatch, bind, lift. rewrite E.
    apply getFAQs_items in E.
    destruct E as [|faq l (_ & [q Hq] & _) _]; [reflexivity|]. simpl.
    unfold faq_matches. now rewrite Hq, Hlow, includes_empty.
Qed.

End Failures.

(** ** Stock on the relational backend *)

Lemma updateInventoryQuantity_runs this itemId newQuantity w :
  adapter this = Relational -> fault w = None ->
  exists w',
    updateInventoryQuantity this itemId newQuantity w = (Return true, w') /\
    db w' = mkTables (map (restock itemId newQuantity) (inventory (db w)))
              (orders (db w)) (faqs (db w)) (next_order_id (db w)) /\
    sheet w' = sheet w /\ fault w' = None.
Proof.
  intros [c Hc]%adapter_relational Hf.
  unfold updateInventoryQuantity. rewrite Hc. run. rewrite Hf. simpl.
  eexists. split; [reflexivity|]. simpl. auto.
Qed.

(** Only the relational branch answers [true], and only with the network
    up. *)
Lemma updateInventoryQuantity_true this itemId newQuantity w w' :
  updateInventoryQuantity this itemId newQuantity w = (Return true, w') ->
  adapter this = Relational /\ fault w = None.
Proof.
  unfold updateInventoryQuantity, adapter.
  destruct (supabase this); run; [|discriminate].
  destruct (fault w); [discriminate | auto].
Qed.

Lemma restock_id itemId q row :
  InventoryRow.id (restock itemId q row) = InventoryRow.id row.
Proof. unfold restock. now destruct (InventoryRow.id row =? itemId). Qed.

Lemma restock_consistent itemId q row :
  InventoryRow.is_available row = (0 <? InventoryRow.quantity row) ->
  InventoryRow.is_available (restock itemId q row) =
  (0 <? InventoryRow.quantity (restock itemId q row)).
Proof. unfold restock. now destruct (InventoryRow.id row =? itemId). Qed.

Lemma restock_twice itemId q row :
  restock itemId q (restock itemId q row) = restock itemId q row.
Proof.
  unfold restock at 2 3. destruct (InventoryRow.id row =? itemId) eqn:E.
  - unfold restock. simpl. now rewrite E.
  - unfold restock. now rewrite E.
Qed.

(** X8: the writes keep the inventory table consistent: if every row has
    its flag equal to [quantity > 0] before an [updateInventoryQuantity] or a
    [createOrder], every row has afterwards, whatever the outcome. *)
Theorem stock_consistent_preserved this w :
  stock_consistent (db w) ->
  (forall itemId newQuantity r w',
     updateInventoryQuantity this itemId newQuantity w = (r, w') ->
     stock_consistent (db w')) /\
  (forall orderData r w',
     createOrder this orderData w = (r, w') -> stock_consistent (db w')).
Proof.
  unfold stock_consistent. intros Hinv. split; intros *.
  - unfold updateInventoryQuantity.
    destruct (supabase this); run; destruct (fault w); simpl;
      intros [= _ <-]; simpl; try assumption.
    apply Forall_map. eapply Forall_impl; [|exact Hinv].
    intros row. apply (restock_consistent itemId newQuantity).
  - unfold createOrder.
    destruct (supabase this); [|destruct (sheets this)]; run;
      destruct (fault w); simpl; intros [= _ <-]; assumption.
Qed.

Section Stock.
Context {case : CaseMap}.

(** X9: on the relational adapter, when the inventory table is consistent,
    every item [getInventory()] returns has a positive quantity, and so its
    flag does equal [quantity > 0]. *)
Theorem consistent_stock_reads_consistent this w inv w1 :
  adapter this = Relational -> stock_consistent (db w) ->
  getInventory this w = (Return inv, w1) ->
  Forall (fun item => gt0 (Item.quantity item) = true /\
                      availability_tracks_quantity item) inv.
Proof.
  intros Ha Hinv H.
  destruct (getInventory_returns _ _ _ _ H) as (-> & Hf & _).
  rewrite (getInventory_relational _ _ Ha Hf) in H. injection H as <-.
  apply Forall_forall. intros item (row & <- & Hrow)%in_map_iff.
  apply filter_In in Hrow as [Hin Hav].
  unfold stock_consistent in Hinv. rewrite Forall_forall in Hinv.
  specialize (Hinv row Hin). unfold availability_tracks_quantity. simpl.
  destruct (InventoryRow.is_available row); [|discriminate]. auto.
Qed.

(** X10: after [updateInventoryQuantity(itemId, q)] has returned [true],
    [getInventory()] returns: no item of that identifier when [q] is not
    positive; every row of that identifier, with quantity [q], when it is;
    and among the items of other identifiers exactly those it returned
    before. *)
Theorem restock_then_read this itemId q w w1 :
  updateInventoryQuantity this itemId q w = (Return true, w1) ->
  exists before after,
    getInventory this w = (Return before, w) /\
    getInventory this w1 = (Return after, w1) /\
    (q <= 0 -> Forall (fun item => Item.id item <> Num itemId) after) /\
    (0 < q -> forall row,
       In row (inventory (db w)) -> InventoryRow.id row = itemId ->
       In (Item.mk (Num itemId) (Some (InventoryRow.name row))
             (InventoryRow.price row) (Num q) true) after) /\
    (forall item, Item.id item <> Num itemId ->
       (In item after <-> In item before)).
Proof.
  intros H. destruct (updateInventoryQuantity_true _ _ _ _ _ H) as [Ha Hf].
  destruct (updateInventoryQuantity_runs this itemId q w Ha Hf)
    as (w' & Hrun & Hdb & _ & Hf').
  rewrite Hrun in H. injection H as <-.
  do 2 eexists.
  split; [now apply getInventory_relational|].
  split; [now apply getInventory_relational|].
  rewrite Hdb. cbn [inventory].
  assert (member : forall item,
            In item (map item_of_row
                       (filter (fun r => Bool.eqb (InventoryRow.is_available r) true)
                          (map (restock itemId q) (inventory (db w))))) <->
            exists row, In row (inventory (db w)) /\
                        item = item_of_row (restock itemId q row) /\
                        InventoryRow.is_available (restock itemId q row) = true).
  { intros item. rewrite in_map_iff. split.
    - intros (r & <- & [(row & <- & Hin)%in_map_iff Hav]%filter_In).
      exists row. split; [assumption|]. split; [reflexivity|].
      now destruct (InventoryRow.is_available (restock itemId q row)).
    - intros (row & Hin & -> & Hav). eexists. split; [reflexivity|].
      apply filter_In. split; [now apply in_map | now rewrite Hav]. }
  repeat split.
  - intros Hq. apply Forall_forall. intros item (row & _ & -> & Hav)%member.
    unfold restock in *. simpl.
    destruct (InventoryRow.id row =? itemId) eqn:E; simpl in *.
    + apply Z.ltb_lt in Hav. lia.
    + intros [= Hid]. apply Z.eqb_neq in E. contradiction.
  - intros Hq row Hin Hid. apply member. exists row.
    unfold restock, item_of_row. subst itemId. rewrite Z.eqb_refl. simpl.
    rewrite (proj2 (Z.ltb_lt 0 q) Hq). auto.
  - intros (row & Hin & -> & Hav)%member.
    unfold restock in *.
    destruct (InventoryRow.id row =? itemId) eqn:E.
    { exfalso. apply H. simpl. apply Z.eqb_eq in E. now rewrite E. }
    apply in_map, filter_In. split; [assumption | now rewrite Hav].
  - intros (row & <- & [Hin Hav]%filter_In)%in_map_iff.
    apply member. exists row. simpl in H.
    assert (E : (InventoryRow.id row =? itemId) = false)
      by (apply Z.eqb_neq; congruence).
    unfold restock. rewrite E. split; [assumption|]. split; [reflexivity|].
    now destruct (InventoryRow.is_available row).
Qed.

End Stock.

(** X11: [updateInventoryQuantity] is idempotent: repeating a call that
    returned [true] returns [true] again and leaves the tables as the first
    call left them. *)
Theorem updateInventoryQuantity_idempotent this itemId q w w1 :
  updateInventoryQuantity this itemId q w = (Return true, w1) ->
  exists w2,
    updateInventoryQuantity this itemId q w1 = (Return true, w2) /\
    db w2 = db w1.
Proof.
  intros H. destruct (updateInventoryQuantity_true _ _ _ _ _ H) as [Ha Hf].
  destruct (updateInventoryQuantity_runs this itemId q w Ha Hf)
    as (w' & Hrun & Hdb & _ & Hf').
  rewrite Hrun in H. injection H as <-.
  destruct (updateInventoryQuantity_runs this itemId q w' Ha Hf')
    as (w2 & Hrun2 & Hdb2 & _).
  exists w2. split; [assumption|]. rewrite Hdb2, Hdb. cbn.
  f_equal. rewrite map_map. apply map_ext. apply restock_twice.
Qed.

(** X12: on the relational adapter, [updateInventoryQuantity] for an
    identifier that no row has still returns [true], and the tables are
    unchanged: [true] does not say that a row was found. *)
Theorem updateInventoryQuantity_unknown_item this itemId q w :
  adapter this = Relational -> fault w = None ->
  (forall row, In row (inventory (db w)) -> InventoryRow.id row <> itemId) ->
  exists w',
    updateInventoryQuantity this itemId q w = (Return true, w') /\
    db w' = db w.
Proof.
  intros Ha Hf Hno.
  destruct (updateInventoryQuantity_runs this itemId q w Ha Hf)
    as (w' & Hrun & Hdb & _).
  exists w'. split; [assumption|]. rewrite Hdb.
  replace (map (restock itemId q) (inventory (db w))) with (inventory (db w)).
  - now destruct (db w).
  - rewrite <- (map_id (inventory (db w))) at 1. apply map_ext_in.
    intros row Hin. unfold restock.
    now rewrite (proj2 (Z.eqb_neq _ _) (Hno row Hin)).
Qed.

(** ** Orders *)

(** An order is only returned by a configured service with the network
    up. *)
Lemma createOrder_returns this orderData w order w1 :
  createOrder this orderData w = (Return order, w1) ->
  fault w = None /\ adapter this <> Unconfigured.
Proof.
  unfold createOrder, adapter.
  destruct (supabase this); [|destruct (sheets this)]; run;
    destruct (fault w); try discriminate; intros _; split;
    reflexivity || discriminate.
Qed.

Lemma getOrderById_runs this orderId w :
  adapter this = Relational -> fault w = None ->
  getOrderById this orderId w =
  match filter (fun o => Order.id o =? orderId) (orders (db w)) with
  | [order] => (Return (Some order), w)
  | _ => (Throw (PostgrestError "PGRST116"),
          logged "Error fetching order by ID:" (PostgrestError "PGRST116") w)
  end.
Proof.
  intros [c Hc]%adapter_relational Hf.
  unfold getOrderById, Postgrest.eq, Postgrest.select, Postgrest.from.
  rewrite Hc. run. rewrite Hf.
  now destruct (filter _ _) as [|o [|o' l]].
Qed.

Lemma filter_older n (l : list Order.t) :
  Forall (fun o => Order.id o < n) l ->
  filter (fun o => Order.id o =? n) l = [].
Proof.
  induction 1 as [|o l Ho _ IH]; simpl; [reflexivity|].
  now rewrite (proj2 (Z.eqb_neq _ _)) by lia.
Qed.

Lemma filter_unique_id (l : list Order.t) order :
  NoDup (map Order.id l) -> In order l ->
  filter (fun o => Order.id o =? Order.id order) l = [order].
Proof.
  induction l as [|o l IH]; simpl; [easy|].
  intros Hnd Hin. apply NoDup_cons_iff in Hnd as [Hfresh Hnd].
  destruct Hin as [-> | Hin].
  - rewrite Z.eqb_refl. f_equal.
    destruct (filter _ l) as [|o' l'] eqn:E; [reflexivity|].
    exfalso. apply Hfresh.
    assert (Ho' : In o' (filter (fun o => Order.id o =? Order.id order) l))
      by (rewrite E; now left).
    apply filter_In in Ho' as [Ho' Hid]. apply Z.eqb_eq in Hid.
    rewrite <- Hid. now apply in_map.
  - destruct (Order.id o =? Order.id order) eqn:E; [|auto].
    exfalso. apply Hfresh. apply Z.eqb_eq in E. rewrite E. now apply in_map.
Qed.

(** X13: on the relational adapter, an order [createOrder] has returned is
    found again by its identifier: [getOrderById(order.id)] returns that
    very order, as long as the store's sequence was ahead of the identifiers
    in the table. *)
Theorem createOrder_then_getOrderById this orderData w order w1 :
  adapter this = Relational -> sequence_fresh (db w) ->
  createOrder this orderData w = (Return order, w1) ->
  getOrderById this (Order.id order) w1 = (Return (Some order), w1).
Proof.
  intros Ha [Hbelow _] H.
  destruct (createOrder_returns _ _ _ _ _ H) as [Hf _].
  rewrite (createOrder_relational _ orderData _ Ha Hf) in H.
  injection H as <- <-.
  rewrite getOrderById_runs by (simpl; assumption). cbn.
  now rewrite filter_app, filter_older; [cbn; rewrite Z.eqb_refl|].
Qed.

(** X14: the writes keep the store's sequence ahead of the table, and the
    identifiers distinct, whatever their outcome. *)
Theorem sequence_fresh_preserved this w :
  sequence_fresh (db w) ->
  (forall orderData r w',
     createOrder this orderData w = (r, w') -> sequence_fresh (db w')) /\
  (forall itemId newQuantity r w',
     updateInventoryQuantity this itemId newQuantity w = (r, w') ->
     sequence_fresh (db w')).
Proof.
  unfold sequence_fresh. intros [Hbelow Hnd]. split; intros *.
  - unfold createOrder.
    destruct (supabase this); [|destruct (sheets this)]; run;
      destruct (fault w); simpl; intros [= _ <-]; simpl; auto.
    split.
    + apply Forall_app. split.
      * eapply Forall_impl; [|exact Hbelow]. simpl. intros; lia.
      * repeat constructor. simpl. lia.
    + rewrite map_app. simpl.
      eapply Permutation_NoDup; [apply Permutation_cons_append|].
      constructor; [|assumption].
      rewrite Forall_forall in Hbelow.
      intros (o & Hid & Hin%Hbelow)%in_map_iff. lia.
  - unfold updateInventoryQuantity.
    destruct (supabase this); run; destruct (fault w); simpl;
      intros [= _ <-]; simpl; auto.
Qed.

(** X15: on the relational adapter with the network up, when no two rows
    share an identifier, [getOrderById(id)] returns an order exactly when
    that order is in the table under that identifier. *)
Theorem getOrderById_unique_ids this orderId w order :
  adapter this = Relational -> fault w = None ->
  NoDup (map Order.id (orders (db w))) ->
  getOrderById this orderId w = (Return (Some order), w) <->
  In order (orders (db w)) /\ Order.id order = orderId.
Proof.
  intros Ha Hf Hnd. rewrite getOrderById_runs by assumption. split.
  - destruct (filter _ _) as [|o [|o' l]] eqn:E; try discriminate.
    intros [= ->].
    assert (Hin : In order (filter (fun o => Order.id o =? orderId) (orders (db w))))
      by (rewrite E; now left).
    apply filter_In in Hin as [Hin Hid]. now apply Z.eqb_eq in Hid.
  - intros [Hin <-]. now rewrite filter_unique_id.
Qed.

(** X16: [createOrder] never touches the stock, on either adapter and
    whatever its outcome: inventory and FAQs stay as they are, in the tables
    and in the sheet; orders are only ever added after the ones there. *)
Theorem createOrder_keeps_stock this orderData w r w' :
  createOrder this orderData w = (r, w') ->
  inventory (db w') = inventory (db w) /\
  faqs (db w') = faqs (db w) /\
  Inventory_values (sheet w') = Inventory_values (sheet w) /\
  FAQs_values (sheet w') = FAQs_values (sheet w) /\
  (exists new, orders (db w') = (orders (db w) ++ new)%list) /\
  (exists rows, Orders_rows (sheet w') = (Orders_rows (sheet w) ++ rows)%list).
Proof.
  unfold createOrder.
  destruct (supabase this); [|destruct (sheets this)]; run;
    destruct (fault w); simpl; intros [= _ <-]; simpl;
    repeat split; eauto; exists []; now rewrite app_nil_r.
Qed.

Lemma createOrder_spreadsheet_runs this orderData w :
  adapter this = Spreadsheet -> fault w = None ->
  createOrder this orderData w =
  (Return
     (Order.mk (time w (S (reads w))) (OrderData.customerPhone orderData)
        (OrderData.customerName orderData)
        (JSON_stringify (OrderData.items orderData))
        (OrderData.totalAmount orderData) "pending" (time w (reads w))),
   mkWorld (db w)
     (mkSheet (Inventory_values (sheet w)) (FAQs_values (sheet w))
        (Orders_rows (sheet w) ++
         [[ CellString EmptyString;
            CellString (OrderData.customerPhone orderData);
            match OrderData.customerName orderData with
            | Some n => CellString n
            | None => CellUndefined
            end;
            CellString (JSON_stringify (OrderData.items orderData));
            CellNumber (OrderData.totalAmount orderData);
            CellString "pending";
            CellInstant (time w (reads w)) ]]))
     (fault w) (time w) (S (S (reads w)))
     (log w ++ [mkLog INFO "Order created in Google Sheets" None])).
Proof.
  intros [Hs [c Hc]]%adapter_spreadsheet Hf.
  unfold createOrder. rewrite Hs, Hc. run.
  match goal with |- _ = ?r => remember r as outcome end.
  rewrite Hf. subst outcome. reflexivity.
Qed.

(** X17: on the spreadsheet adapter the identifier [createOrder] returns is
    written nowhere: the appended row opens with an empty cell, the tables
    are untouched, and neither [getOrderById] with that identifier nor
    [getOrdersByPhone] with the customer's phone finds the order again. *)
Theorem spreadsheet_order_is_not_retrievable this orderData w order w1 :
  adapter this = Spreadsheet ->
  createOrder this orderData w = (Return order, w1) ->
  db w1 = db w /\
  Orders_rows (sheet w1) =
  (Orders_rows (sheet w) ++
   [[ CellString EmptyString;
      CellString (Order.customer_phone order);
      match Order.customer_name order with
      | Some n => CellString n
      | None => CellUndefined
      end;
      CellString (Order.items order);
      CellNumber (Order.total_amount order);
      CellString (Order.status order);
      CellInstant (Order.created_at order) ]])%list /\
  getOrderById this (Order.id order) w1 = (Return None, w1) /\
  fst (getOrdersByPhone this (OrderData.customerPhone orderData) w1) = Return [].
Proof.
  intros Ha H.
  destruct (createOrder_returns _ _ _ _ _ H) as [Hf _].
  rewrite (createOrder_spreadsheet_runs _ orderData _ Ha Hf) in H.
  injection H as <- <-. simpl.
  apply adapter_spreadsheet in Ha as [Hs _].
  unfold getOrderById, getOrdersByPhone. rewrite Hs. run. auto.
Qed.

(** X18: on the spreadsheet adapter the identifier is the clock reading
    taken at the return, so two orders created one after the other get the
    same identifier exactly when the clock reads the same at both returns. *)
Theorem spreadsheet_ids_follow_the_clock this data1 data2 w order1 w1 order2 w2 :
  adapter this = Spreadsheet ->
  createOrder this data1 w = (Return order1, w1) ->
  createOrder this data2 w1 = (Return order2, w2) ->
  Order.id order1 = time w (1 + reads w)%nat /\
  Order.id order2 = time w (3 + reads w)%nat /\
  (Order.id order1 = Order.id order2 <->
   time w (1 + reads w)%nat = time w (3 + reads w)%nat).
Proof.
  intros Ha H1 H2.
  destruct (createOrder_returns _ _ _ _ _ H1) as [Hf _].
  rewrite (createOrder_spreadsheet_runs _ data1 _ Ha Hf) in H1.
  injection H1 as <- <-.
  rewrite createOrder_spreadsheet_runs in H2 by (simpl; assumption).
  injection H2 as <- _. simpl. repeat split; auto.
Qed.

(** ** The start-up probe *)

(** X19: [initializeDatabase] never throws, whatever is configured and
    whatever the network does; it touches neither store and writes at most
    one log line. *)
Theorem initializeDatabase_never_throws this w :
  exists w' entries,
    initializeDatabase this w = (Return tt, w') /\
    only_logs w w' /\
    log w' = (log w ++ entries)%list /\ (List.length entries <= 1)%nat.
Proof.
  unfold initializeDatabase, Postgrest.select_count, Postgrest.from.
  destruct (supabase this); [|destruct (sheets this)]; run;
    [destruct (fault w)|..]; simpl;
    do 2 eexists;
    (split; [reflexivity|]);
    (split; [first [apply only_logs_refl
                   | unfold only_logs, same_stores; simpl; repeat split; eauto]|]);
    simpl;
    first [ split; [reflexivity | simpl; lia]
          | split; [symmetry; apply app_nil_r | simpl; lia] ].
Qed.

(** X20: the probe reports less than it finds.  When the relational store
    cannot be reached it logs nothing at all; when only the spreadsheet is
    configured it logs that it is configured without any request, so also
    with the network down; without any backend it logs a warning. *)
Theorem initializeDatabase_reports this w :
  (adapter this = Relational -> fault w <> None ->
   initializeDatabase this w = (Return tt, w)) /\
  (adapter this = Spreadsheet ->
   initializeDatabase this w =
   (Return tt, set_log (log w ++ [mkLog INFO "Google Sheets configured" None]) w)) /\
  (adapter this = Unconfigured ->
   initializeDatabase this w =
   (Return tt,
    set_log (log w ++ [mkLog WARN "No database configuration found" None]) w)).
Proof.
  unfold initializeDatabase. repeat split.
  - intros [c Hc]%adapter_relational Hf. rewrite Hc. run.
    destruct (fault w); [reflexivity | contradiction].
  - intros [Hs [c Hc]]%adapter_spreadsheet. now rewrite Hs, Hc.
  - intros [Hs Hg]%adapter_unconfigured. now rewrite Hs, Hg.
Qed.

(** ** The webhook routes *)

Lemma option_string_eqb_eq a b : option_string_eqb a b = true <-> a = b.
Proof.
  destruct a as [x|], b as [y|]; simpl; try easy.
  rewrite String.eqb_eq. split; congruence.
Qed.

(** X21: the handshake answers 200 with the challenge exactly when the mode
    is ["subscribe"] and the token of the request is identical to the
    configured one, and 403 ["Forbidden"] otherwise; it changes nothing but
    the log.  Two absent values are identical: with the variable unset, a
    request that carries no token is verified. *)
Theorem webhook_get_verifies token query w :
  (hub_mode query = Some "subscribe" /\ hub_verify_token query = token ->
   fst (webhook_get token query w) = Return (mkResponse 200 (hub_challenge query))) /\
  (~ (hub_mode query = Some "subscribe" /\ hub_verify_token query = token) ->
   fst (webhook_get token query w) = Return (mkResponse 403 (Some "Forbidden"))) /\
  (hub_mode query = Some "subscribe" -> hub_verify_token query = None ->
   fst (webhook_get None query w) = Return (mkResponse 200 (hub_challenge query))) /\
  benign (webhook_get token query).
Proof.
  unfold webhook_get. split; [|split; [|split]].
  - intros [Hm Ht].
    rewrite (proj2 (option_string_eqb_eq _ _) Hm),
            (proj2 (option_string_eqb_eq _ _) Ht). reflexivity.
  - intros Hno.
    destruct (option_string_eqb (hub_mode query) (Some "subscribe")) eqn:Em;
      [destruct (option_string_eqb (hub_verify_token query) token) eqn:Et|];
      try reflexivity.
    exfalso. apply Hno. now rewrite <- !option_string_eqb_eq.
  - intros Hm Ht.
    rewrite (proj2 (option_string_eqb_eq _ _) Hm),
            (proj2 (option_string_eqb_eq _ _) Ht). reflexivity.
  - destruct (_ && _); repeat benign_step.
Qed.

(** Lays a call of the POST route open down to the loop over the messages. *)
Ltac open_post :=
  unfold webhook_post, tryCatch, bind, logger.info, logger.error, write_log,
    ret, logged, received;
  cbv beta iota.

Section Deliveries.
Variable handler : Message.t -> option Contact.t -> Async unit.

Lemma for_of_in_turn contacts messages w :
  for_of handler (Some contacts) messages w =
  in_turn (map (fun m => handler m (contact_of contacts m))
             (filter is_text messages)) w.
Proof.
  revert w. induction messages as [|m rest IH]; intros w; [reflexivity|].
  cbn [for_of filter]. unfold deliver, is_text.
  destruct (Message.type m =? "text")%string; cbn [map in_turn].
  - unfold bind, contact_of. destruct (handler m _ w) as [[[]|e] w1]; auto.
  - unfold bind, ret. apply IH.
Qed.

(** X22: a body from which no [messages] can be taken is answered 200
    ["OK"] at once: the handler is not called, and two lines go to the
    log. *)
Theorem webhook_post_without_messages body w :
  delivered body = None ->
  webhook_post handler body w =
  (Return (mkResponse 200 (Some "OK")),
   set_log (log w ++ [mkLog INFO "Received webhook payload:" None;
                      mkLog INFO "No messages in webhook payload" None]) w).
Proof.
  intros H. unfold webhook_post. rewrite H. run.
  now rewrite <- app_assoc.
Qed.

(** X23: with [messages] and [contacts] in the body, the router awaits the
    handler once for every message of type ["text"], in the order of the
    payload and each with the first contact whose [wa_id] is the sender;
    messages of any other type are passed over. *)
Theorem webhook_post_delivers body messages contacts w :
  delivered body = Some (messages, Some contacts) ->
  webhook_post handler body w =
  tryCatch
    (logger.info "Received webhook payload:" ;;
     in_turn (map (fun m => handler m (contact_of contacts m))
                (filter is_text messages)) ;;
     ret (mkResponse 200 (Some "OK")))
    (fun error =>
       logger.error "Error processing webhook:" error ;;
       ret (mkResponse 500 (Some "Error processing webhook"))) w.
Proof.
  intros H. unfold webhook_post. rewrite H.
  unfold tryCatch, bind, logger.info, write_log.
  now rewrite for_of_in_turn.
Qed.

(** X24: the router always answers, whatever the handler does: with 200
    ["OK"], or with 500 when something threw, and then the error is the last
    line of the log. *)
Theorem webhook_post_always_answers body w :
  exists w',
    webhook_post handler body w = (Return (mkResponse 200 (Some "OK")), w') \/
    exists e,
      webhook_post handler body w =
      (Return (mkResponse 500 (Some "Error processing webhook")), w') /\
      ends_with_error "Error processing webhook:" e w'.
Proof.
  open_post. destruct (delivered body) as [[messages contacts]|]; cbv beta iota.
  - destruct (for_of handler contacts messages _) as [[[]|e] w1]; cbv beta iota.
    + eexists. left. reflexivity.
    + eexists. right. exists e. split; [reflexivity|]. now exists (log w1).
  - eexists. left. reflexivity.
Qed.

(** X25: the first delivery that throws ends the request: the answer is
    500, the error is logged, and the messages after it are not looked
    at. *)
Theorem webhook_post_stops_at_first_failure body before m after contacts w w1 e w2 :
  delivered body = Some ((before ++ m :: after)%list, contacts) ->
  for_of handler contacts before (received w) = (Return tt, w1) ->
  deliver handler contacts m w1 = (Throw e, w2) ->
  webhook_post handler body w =
  (Return (mkResponse 500 (Some "Error processing webhook")),
   logged "Error processing webhook:" e w2).
Proof.
  intros H Hbefore Hm.
  assert (Hrun : for_of handler contacts (before ++ m :: after) (received w) =
                 (Throw e, w2)).
  { clear H. revert Hbefore. generalize (received w).
    induction before as [|b before IH]; intros w0; cbn [for_of app].
    - unfold ret. intros [= <-]. unfold bind. now rewrite Hm.
    - unfold bind. destruct (deliver handler contacts b w0) as [[[]|e0] w0'].
      + exact (IH w0').
      + discriminate. }
  unfold received in Hrun. open_post. now rewrite H, Hrun.
Qed.

End Deliveries.

(** X26: a body whose value has [messages] but no [contacts] fails on its
    first text message, before any handler is called: the answer is 500 and
    the logged error is the [TypeError]. *)
Theorem webhook_post_without_contacts handler body messages w :
  delivered body = Some (messages, None) ->
  Exists (fun m => is_text m = true) messages ->
  webhook_post handler body w =
  (Return (mkResponse 500 (Some "Error processing webhook")),
   logged "Error processing webhook:" TypeError (received w)).
Proof.
  intros H Htext.
  assert (Hrun : for_of handler None messages (received w) =
                 (Throw TypeError, received w)).
  { clear H. generalize (received w).
    induction Htext as [m rest Hm | m rest _ IH]; intros w0; cbn [for_of];
      unfold bind, deliver.
    - unfold is_text in Hm. now rewrite Hm.
    - destruct (Message.type m =? "text")%string; [reflexivity | exact (IH w0)]. }
  unfold received in Hrun. open_post. now rewrite H, Hrun.
Qed.

(** * The further properties at work on the sample worlds *)

Lemma thrown_errors_are_logged_witness :
  ends_with_error "Error fetching order by ID:" (PostgrestError "fetch failed")
    (snd (getOrderById relational_service 1 offline_world)).
Proof.
  destruct (@thrown_errors_are_logged ascii_case relational_service offline_world
              (PostgrestError "fetch failed")
              (snd (getOrderById relational_service 1 offline_world))
              "burger" 1 5 sample_order_data "+1555" 1 "refund")
    as (_ & _ & _ & _ & _ & Hid & _).
  apply Hid. reflexivity.
Defined.

Lemma failed_writes_change_nothing_witness :
  same_stores offline_world
    (snd (createOrder relational_service sample_order_data offline_world)).
Proof.
  apply (proj2 (failed_writes_change_nothing relational_service offline_world
                  (PostgrestError "fetch failed")
                  (snd (createOrder relational_service sample_order_data offline_world)))
           sample_order_data).
  reflexivity.
Defined.

Lemma getItemByName_throws_witness :
  (@getItemByName ascii_case unconfigured_service "burger" sample_world =
   (Throw NoDatabaseConfiguration,
    logged "Error finding item by name:" NoDatabaseConfiguration
      (logged "Error fetching inventory:" NoDatabaseConfiguration sample_world)) /\
   ends_with_error "Error fetching inventory:" NoDatabaseConfiguration
     (logged "Error fetching inventory:" NoDatabaseConfiguration sample_world)) /\
  exists w0,
    @getInventory ascii_case spreadsheet_service offline_world =
    (Throw (TransportError "fetch failed"), w0) /\
    snd (@getItemByName ascii_case spreadsheet_service "burger" offline_world) =
    logged "Error finding item by name:" (TransportError "fetch failed") w0.
Proof.
  split.
  - apply (proj1 (@getItemByName_throws ascii_case unconfigured_service "burger"
                    sample_world NoDatabaseConfiguration)).
    reflexivity.
  - apply (proj2 (@getItemByName_throws ascii_case spreadsheet_service "burger"
                    offline_world (TransportError "fetch failed")) eq_refl).
    reflexivity.
Defined.

Lemma searchFAQ_throws_witness :
  (@searchFAQ ascii_case unconfigured_service "refund" sample_world =
   (Throw NoDatabaseConfiguration,
    logged "Error searching FAQ:" NoDatabaseConfiguration
      (logged "Error fetching FAQs:" NoDatabaseConfiguration sample_world)) /\
   ends_with_error "Error fetching FAQs:" NoDatabaseConfiguration
     (logged "Error fetching FAQs:" NoDatabaseConfiguration sample_world)) /\
  exists w0,
    @getFAQs ascii_case spreadsheet_service offline_world =
    (Throw (TransportError "fetch failed"), w0) /\
    snd (@searchFAQ ascii_case spreadsheet_service "refund" offline_world) =
    logged "Error searching FAQ:" (TransportError "fetch failed") w0.
Proof.
  split.
  - apply (proj1 (@searchFAQ_throws ascii_case unconfigured_service "refund"
                    sample_world NoDatabaseConfiguration)).
    reflexivity.
  - apply (proj2 (@searchFAQ_throws ascii_case spreadsheet_service "refund"
                    offline_world (TransportError "fetch failed")) eq_refl).
    reflexivity.
Defined.

Lemma empty_query_returns_first_witness :
  @getItemByName ascii_case relational_service EmptyString sample_world =
  (Return (Some (item_of_row burger_row)), sample_world) /\
  @searchFAQ ascii_case spreadsheet_service EmptyString empty_sheet_world =
  (Return None, empty_sheet_world).
Proof.
  split.
  - apply (proj1 (@empty_query_returns_first ascii_case relational_service
                    sample_world eq_refl) [item_of_row burger_row]).
    reflexivity.
  - apply (proj2 (@empty_query_returns_first ascii_case spreadsheet_service
                    empty_sheet_world eq_refl) []).
    reflexivity.
Defined.

Lemma sample_stock_consistent : stock_consistent (db sample_world).
Proof. repeat constructor. Qed.

Lemma stock_consistent_preserved_witness :
  stock_consistent (db (snd (updateInventoryQuantity relational_service 1 0 sample_world))) /\
  stock_consistent (db (snd (createOrder relational_service sample_order_data sample_world))).
Proof.
  destruct (stock_consistent_preserved relational_service sample_world
              sample_stock_consistent) as [Hupdate Hcreate].
  split.
  - apply (Hupdate 1 0 (Return true)). reflexivity.
  - apply (Hcreate sample_order_data
             (fst (createOrder relational_service sample_order_data sample_world))).
    reflexivity.
Defined.

Lemma consistent_stock_reads_consistent_witness :
  Forall (fun item => gt0 (Item.quantity item) = true /\
                      availability_tracks_quantity item)
    [item_of_row burger_row].
Proof.
  apply (@consistent_stock_reads_consistent ascii_case relational_service
           sample_world _ sample_world eq_refl sample_stock_consistent).
  reflexivity.
Defined.

Lemma restock_then_read_witness :
  exists before after,
    @getInventory ascii_case relational_service sample_world =
    (Return before, sample_world) /\
    @getInventory ascii_case relational_service
      (snd (updateInventoryQuantity relational_service 1 0 sample_world)) =
    (Return after, snd (updateInventoryQuantity relational_service 1 0 sample_world)) /\
    (0 <= 0 -> Forall (fun item => Item.id item <> Num 1) after) /\
    (0 < 0 -> forall row,
       In row [burger_row] -> InventoryRow.id row = 1 ->
       In (Item.mk (Num 1) (Some (InventoryRow.name row))
             (InventoryRow.price row) (Num 0) true) after) /\
    (forall item, Item.id item <> Num 1 -> (In item after <-> In item before)).
Proof.
  apply (@restock_then_read ascii_case relational_service 1 0 sample_world).
  reflexivity.
Defined.

Lemma updateInventoryQuantity_idempotent_witness :
  exists w2,
    updateInventoryQuantity relational_service 1 9
      (snd (updateInventoryQuantity relational_service 1 9 sample_world)) =
    (Return true, w2) /\
    db w2 = db (snd (updateInventoryQuantity relational_service 1 9 sample_world)).
Proof.
  apply (updateInventoryQuantity_idempotent relational_service 1 9 sample_world).
  reflexivity.
Defined.

Lemma updateInventoryQuantity_unknown_item_witness :
  exists w',
    updateInventoryQuantity relational_service 99 5 sample_world = (Return true, w') /\
    db w' = sample_tables.
Proof.
  apply (updateInventoryQuantity_unknown_item relational_service 99 5 sample_world
           eq_refl eq_refl).
  intros row [<- | []]. discriminate.
Defined.

Lemma returning_sequence_fresh : sequence_fresh (db returning_world).
Proof.
  split; simpl.
  - repeat constructor.
  - constructor; [intros [] | constructor].
Qed.

Lemma createOrder_then_getOrderById_witness :
  getOrderById relational_service 2
    (snd (createOrder relational_service sample_order_data returning_world)) =
  (Return (Some (Order.mk 2 "+1555" None (JSON_stringify [two_burgers; three_wraps])
                   (parseFloat (Some "19.98")) "pending" 1700000000000)),
   snd (createOrder relational_service sample_order_data returning_world)).
Proof.
  apply (createOrder_then_getOrderById relational_service sample_order_data
           returning_world
           (Order.mk 2 "+1555" None (JSON_stringify [two_burgers; three_wraps])
              (parseFloat (Some "19.98")) "pending" 1700000000000)
           (snd (createOrder relational_service sample_order_data returning_world))
           eq_refl returning_sequence_fresh).
  reflexivity.
Defined.

Lemma sequence_fresh_preserved_witness :
  sequence_fresh
    (db (snd (createOrder relational_service sample_order_data returning_world))).
Proof.
  apply (proj1 (sequence_fresh_preserved relational_service returning_world
                  returning_sequence_fresh)
           sample_order_data
           (fst (createOrder relational_service sample_order_data returning_world))).
  reflexivity.
Defined.

Lemma getOrderById_unique_ids_witness :
  getOrderById relational_service 1 returning_world =
  (Return (Some earlier_order), returning_world).
Proof.
  apply (getOrderById_unique_ids relational_service 1 returning_world earlier_order
           eq_refl eq_refl (proj2 returning_sequence_fresh)).
  split; [now left | reflexivity].
Defined.

Lemma createOrder_keeps_stock_witness :
  inventory (db (snd (createOrder relational_service sample_order_data sample_world))) =
  [burger_row].
Proof.
  apply (createOrder_keeps_stock relational_service sample_order_data sample_world
           (fst (createOrder relational_service sample_order_data sample_world))).
  reflexivity.
Defined.

Lemma spreadsheet_order_is_not_retrievable_witness :
  getOrderById spreadsheet_service 1700000000001
    (snd (createOrder spreadsheet_service sample_order_data sample_world)) =
  (Return None, snd (createOrder spreadsheet_service sample_order_data sample_world)).
Proof.
  apply (spreadsheet_order_is_not_retrievable spreadsheet_service sample_order_data
           sample_world
           (Order.mk 1700000000001 "+1555" None (JSON_stringify [two_burgers; three_wraps])
              (parseFloat (Some "19.98")) "pending" 1700000000000)
           _ eq_refl).
  reflexivity.
Defined.

Lemma spreadsheet_ids_follow_the_clock_witness :
  exists order1 w1 order2 w2,
    createOrder spreadsheet_service sample_order_data still_clock_world =
    (Return order1, w1) /\
    createOrder spreadsheet_service sample_order_data w1 = (Return order2, w2) /\
    Order.id order1 = Order.id order2.
Proof.
  do 4 eexists. split; [reflexivity|]. split; [reflexivity|].
  apply (spreadsheet_ids_follow_the_clock spreadsheet_service sample_order_data
           sample_order_data still_clock_world _ _ _ _ eq_refl eq_refl eq_refl).
  reflexivity.
Defined.

Lemma initializeDatabase_reports_witness :
  initializeDatabase relational_service offline_world = (Return tt, offline_world) /\
  log (snd (initializeDatabase spreadsheet_service offline_world)) =
  [mkLog INFO "Google Sheets configured" None] /\
  log (snd (initializeDatabase unconfigured_service offline_world)) =
  [mkLog WARN "No database configuration found" None].
Proof.
  split; [|split].
  - apply (proj1 (initializeDatabase_reports relational_service offline_world) eq_refl).
    discriminate.
  - rewrite (proj1 (proj2 (initializeDatabase_reports spreadsheet_service offline_world))
               eq_refl).
    reflexivity.
  - rewrite (proj2 (proj2 (initializeDatabase_reports unconfigured_service offline_world))
               eq_refl).
    reflexivity.
Defined.

Lemma webhook_get_verifies_witness :
  fst (webhook_get (Some "s3cret")
         (mkVerify (Some "subscribe") (Some "s3cret") (Some "1158201444")) sample_world) =
  Return (mkResponse 200 (Some "1158201444")) /\
  fst (webhook_get (Some "s3cret")
         (mkVerify (Some "subscribe") (Some "guess") (Some "1158201444")) sample_world) =
  Return (mkResponse 403 (Some "Forbidden")) /\
  fst (webhook_get None
         (mkVerify (Some "subscribe") None (Some "1158201444")) sample_world) =
  Return (mkResponse 200 (Some "1158201444")).
Proof.
  split; [|split].
  - apply (proj1 (webhook_get_verifies (Some "s3cret")
                    (mkVerify (Some "subscribe") (Some "s3cret") (Some "1158201444"))
                    sample_world)).
    split; reflexivity.
  - apply (proj1 (proj2 (webhook_get_verifies (Some "s3cret")
                    (mkVerify (Some "subscribe") (Some "guess") (Some "1158201444"))
                    sample_world))).
    intros [_ [=]].
  - apply (proj1 (proj2 (proj2 (webhook_get_verifies None
                    (mkVerify (Some "subscribe") None (Some "1158201444"))
                    sample_world)))); reflexivity.
Defined.

Lemma webhook_post_without_messages_witness :
  webhook_post strict_handler status_body empty_sheet_world =
  (Return (mkResponse 200 (Some "OK")),
   set_log [mkLog INFO "Received webhook payload:" None;
            mkLog INFO "No messages in webhook payload" None] empty_sheet_world).
Proof.
  apply (webhook_post_without_messages strict_handler status_body empty_sheet_world).
  reflexivity.
Defined.

Lemma webhook_post_delivers_witness :
  webhook_post noting_handler sample_body empty_sheet_world =
  (Return (mkResponse 200 (Some "OK")),
   set_log [mkLog INFO "Received webhook payload:" None;
            mkLog INFO "+1555" None; mkLog INFO "+1666" None] empty_sheet_world).
Proof.
  rewrite (webhook_post_delivers noting_handler sample_body _ _ empty_sheet_world
             eq_refl).
  reflexivity.
Defined.

Lemma webhook_post_stops_at_first_failure_witness :
  webhook_post strict_handler sample_body empty_sheet_world =
  (Return (mkResponse 500 (Some "Error processing webhook")),
   set_log [mkLog INFO "Received webhook payload:" None;
            mkLog INFO "+1555" None;
            mkLog ERROR "Error processing webhook:" (Some TypeError)]
     empty_sheet_world).
Proof.
  apply (webhook_post_stops_at_first_failure strict_handler sample_body
           [Message.mk "image" "+1555" None;
            Message.mk "text" "+1555" (Some "2 burgers")]
           (Message.mk "text" "+1666" (Some "menu")) []
           (Some [Contact.mk "+1555" (Some "Ada")])
           empty_sheet_world
           (set_log [mkLog INFO "Received webhook payload:" None;
                     mkLog INFO "+1555" None] empty_sheet_world)
           TypeError
           (set_log [mkLog INFO "Received webhook payload:" None;
                     mkLog INFO "+1555" None] empty_sheet_world));
    reflexivity.
Defined.

Lemma webhook_post_without_contacts_witness :
  webhook_post noting_handler body_without_contacts empty_sheet_world =
  (Return (mkResponse 500 (Some "Error processing webhook")),
   logged "Error processing webhook:" TypeError (received empty_sheet_world)).
Proof.
  apply (webhook_post_without_contacts noting_handler body_without_contacts
           [Message.mk "image" "+1555" None;
            Message.mk "text" "+1555" (Some "2 burgers")]
           empty_sheet_world eq_refl).
  right. left. reflexivity.
Defined.

(** ** Reading the sheet *)

Lemma read_digits_acc d acc :
  read_digits 10 (NilEmpty.string_of_uint d) (Some (Zpos acc)) =
  Some (Zpos (Pos.of_uint_acc d acc)).
Proof.
  revert acc. induction d; intros acc; cbn [NilEmpty.string_of_uint read_digits Pos.of_uint_acc];
    try reflexivity;
    (change (digit_of 10 _) with (Some 0) || change (digit_of 10 _) with (Some 1)
     || change (digit_of 10 _) with (Some 2) || change (digit_of 10 _) with (Some 3)
     || change (digit_of 10 _) with (Some 4) || change (digit_of 10 _) with (Some 5)
     || change (digit_of 10 _) with (Some 6) || change (digit_of 10 _) with (Some 7)
     || change (digit_of 10 _) with (Some 8) || change (digit_of 10 _) with (Some 9));
    cbv iota beta; rewrite <- IHd; do 2 f_equal; lia.
Qed.

Lemma read_digits_zero d :
  read_digits 10 (NilEmpty.string_of_uint d) (Some 0) =
  Some (Z.of_N (Pos.of_uint d)).
Proof.
  induction d; cbn [NilEmpty.string_of_uint read_digits Pos.of_uint]; try reflexivity;
    (change (digit_of 10 _) with (Some 0) || change (digit_of 10 _) with (Some 1)
     || change (digit_of 10 _) with (Some 2) || change (digit_of 10 _) with (Some 3)
     || change (digit_of 10 _) with (Some 4) || change (digit_of 10 _) with (Some 5)
     || change (digit_of 10 _) with (Some 6) || change (digit_of 10 _) with (Some 7)
     || change (digit_of 10 _) with (Some 8) || change (digit_of 10 _) with (Some 9));
    cbv iota beta; [exact IHd | apply read_digits_acc ..].
Qed.

Lemma read_digits_start d :
  d <> Decimal.Nil ->
  read_digits 10 (NilEmpty.string_of_uint d) None =
  read_digits 10 (NilEmpty.string_of_uint d) (Some 0).
Proof.
  destruct d; [easy| ..]; intros _; reflexivity.
Qed.

Lemma read_digits_positive p :
  read_digits 10 (NilEmpty.string_of_uint (Pos.to_uint p)) None = Some (Zpos p).
Proof.
  rewrite read_digits_start by apply Unsigned.to_uint_nonnil.
  now rewrite read_digits_zero, Unsigned.of_to.
Qed.

(** A text that opens with a sign or a digit has no white space to skip. *)
Lemma trimStart_keeps c s :
  In c (list_ascii_of_string "-0123456789") ->
  trimStart (String c s) = String c s.
Proof.
  intros H. simpl in H.
  repeat (destruct H as [<- | H];
          [destruct s as [|c2 [|c3 s3]]; reflexivity|]).
  contradiction.
Qed.

Lemma decimal_head d :
  d <> Decimal.Nil ->
  exists c s,
    NilEmpty.string_of_uint d = String c s /\
    In c (list_ascii_of_string "0123456789").
Proof.
  destruct d; [easy|..]; intros _; do 2 eexists;
    (split; [reflexivity|]); simpl; tauto.
Qed.

Lemma decimal_prefix d :
  d <> Decimal.Nil ->
  let s := NilEmpty.string_of_uint d in
  trimStart s = s /\ strip_sign s = (1, s) /\ strip_radix s = (10, s).
Proof.
  intros Hd. split.
  - destruct (decimal_head d Hd) as (c & s & -> & Hc).
    apply trimStart_keeps. now right.
  - destruct d as [|l|l|l|l|l|l|l|l|l|l]; [easy|..]; split;
      try reflexivity; destruct l; reflexivity.
Qed.

Lemma to_double_safe z : safe_integer z -> to_double z = Num z.
Proof.
  unfold safe_integer, to_double. intros H.
  now replace (Z.abs z <? 9007199254740992) with true
    by (symmetry; apply Z.ltb_lt; lia).
Qed.

(** [parseInt] reads back what the decimal printing of a safe integer
    wrote. *)
Lemma parseInt_string_of_Z z :
  safe_integer z -> parseInt (Some (string_of_Z z)) = Num z.
Proof.
  intros Hz. rewrite <- (to_double_safe z Hz).
  destruct z as [|p|p]; [reflexivity| |]; unfold string_of_Z, parseInt;
    cbn [Z.to_int NilZero.string_of_int];
    rewrite nilzero_string by apply Unsigned.to_uint_nonnil.
  - destruct (decimal_prefix (Pos.to_uint p) (Unsigned.to_uint_nonnil p)) as (-> & -> & ->).
    now rewrite read_digits_positive.
  - rewrite trimStart_keeps by now left.
    cbn [strip_sign].
    destruct (decimal_prefix (Pos.to_uint p) (Unsigned.to_uint_nonnil p)) as (_ & _ & ->).
    now rewrite read_digits_positive.
Qed.

Section Sheet.
Context {case : CaseMap}.

(** X27: a sheet row that holds an identifier and a quantity in decimal,
    both within the safe integers, is read as the item with those integers,
    its second cell as name and its fifth cell, lower-cased, deciding the
    flag; cells after the fifth are ignored. *)
Theorem item_of_cells_reads_decimals i n p q f extra :
  safe_integer i -> safe_integer q ->
  item_of_cells ([string_of_Z i; n; p; string_of_Z q; f] ++ extra) =
  Item.mk (Num i) (Some n) (parseFloat (Some p)) (Num q)
    (toLowerCase f =? "true")%string.
Proof.
  intros Hi Hq. unfold item_of_cells. cbn [app nth_error flag].
  now rewrite !parseInt_string_of_Z.
Qed.

(** X28: on the spreadsheet adapter with the network up no row can make
    [getInventory()] fail, whatever its cells hold: it returns one item for
    every row whose fifth cell lower-cases to ["true"], in the order of the
    sheet, named by the row's second cell and priced by its third; a row of
    fewer than five cells is passed over in silence. *)
Theorem spreadsheet_rows_never_fail this w rows :
  adapter this = Spreadsheet -> fault w = None ->
  Inventory_values (sheet w) = Some rows ->
  let flagged := filter (fun row => flag (nth_error row 4)) rows in
  exists inv,
    getInventory this w = (Return inv, w) /\
    map (fun item => (Item.name item, Item.price item, Item.is_available item)) inv =
    map (fun row => (nth_error row 1, parseFloat (nth_error row 2), true)) flagged /\
    Forall (fun row => (5 <= List.length row)%nat) flagged.
Proof.
  intros Ha Hf Hrows flagged.
  rewrite getInventory_spreadsheet, Hrows by assumption.
  eexists. split; [reflexivity|]. split.
  - rewrite filter_map_swap, map_map. apply map_ext_in.
    intros row [_ Hflag]%filter_In. unfold item_of_cells in *.
    cbn [Item.name Item.price Item.is_available] in *. now rewrite Hflag.
  - apply Forall_forall. intros row [_ Hflag]%filter_In.
    apply flag_true_defined in Hflag. lia.
Qed.

End Sheet.

Lemma item_of_cells_reads_decimals_witness :
  @item_of_cells ascii_case
    ([string_of_Z 12; "Veggie Wrap"; "4.25"; string_of_Z (-3); "True"] ++ ["note"]) =
  Item.mk (Num 12) (Some "Veggie Wrap") (parseFloat (Some "4.25")) (Num (-3)) true.
Proof.
  apply (@item_of_cells_reads_decimals ascii_case 12 "Veggie Wrap" "4.25" (-3)
           "True" ["note"]);
    unfold safe_integer; simpl; lia.
Defined.

Lemma spreadsheet_rows_never_fail_witness :
  exists inv,
    @getInventory ascii_case spreadsheet_service sample_world = (Return inv, sample_world) /\
    map (fun item => (Item.name item, Item.price item, Item.is_available item)) inv =
    [(Some "Burger", parseFloat (Some "5.99"), true)] /\
    Forall (fun row => (5 <= List.length row)%nat)
      [["1"; "Burger"; "5.99"; "0"; "TRUE"]].
Proof.
  apply (@spreadsheet_rows_never_fail ascii_case spreadsheet_service sample_world
           _ eq_refl eq_refl eq_refl).
Defined.
